(** * Chronology row generator of lifetools

    A shallow embedding of the calendar, era and zodiac code shared by
    [generate_years_v9.py] and the Streamlit variants
    ([generate_years_v10_streamlit.py] .. [generate_years_v14_streamlit.py]),
    followed by the properties the specification states about it, and of
    the list handling of the PDF and image mergers
    ([mergepdf_streamlit.py], [mergepdf_streamlit_v2.py],
    [images_to_pdf_streamlit.py]).

    Python values are modelled as follows.
    - [int] is [Z] (unbounded); [//] and [%] with a positive divisor are
      [Z.div] and [Z.modulo], which round the same way.
    - the month names and the labels are [string]s; a dict with string keys
      is a [gmap string _], [d[k]] raises [KeyError] on a missing key and
      [d.get(k, dflt)] does not.
    - a row is a Python list mixing [int] and [str]: a [list cell].
    - an exception is the [Raise] case of [result].
    - the display name given by the user may hold any Unicode character, so
      it is a list of code points. *)

From Stdlib Require Import Ascii.
From stdpp Require Import base numbers option list strings gmap pretty sorting.

Local Open Scope Z_scope.

(** ** Exceptions and the result monad *)

Inductive exn : Type :=
  | KeyError (key : string)
  | ValueError
  | IndexError
  | LoopBudget.

Inductive result (A : Type) : Type :=
  | Ok (a : A)
  | Raise (e : exn).
Arguments Ok {A} a.
Arguments Raise {A} e.

Global Instance result_ret : MRet result := λ A a, Ok a.
Global Instance result_bind : MBind result := λ A B f r,
  match r with
  | Ok a => f a
  | Raise e => Raise e
  end.

(** ** Python primitives used by the scripts *)

(** [d[k]] on a dict. *)
Definition dict_getitem {V} (d : gmap string V) (k : string) : result V :=
  match d !! k with
  | Some v => Ok v
  | None => Raise (KeyError k)
  end.

(** [d.get(k, dflt)] on a dict. *)
Definition dict_get {V} (d : gmap string V) (k : string) (dflt : V) : V :=
  default dflt (d !! k).

(** [l[i]] on a list: a negative index counts from the end, an index out of
    range raises [IndexError]. *)
Definition list_getitem {A} (l : list A) (i : Z) : result A :=
  let n := Z.of_nat (length l) in
  let j := if i <? 0 then i + n else i in
  if (0 <=? j) && (j <? n)
  then match l !! Z.to_nat j with
       | Some x => Ok x
       | None => Raise IndexError
       end
  else Raise IndexError.

(** [l.index(x)]: the first position of [x], or [ValueError]. *)
Fixpoint list_index (l : list string) (x : string) : result Z :=
  match l with
  | [] => Raise ValueError
  | y :: l' =>
      if String.eqb y x then Ok 0
      else i ← list_index l' x; Ok (i + 1)
  end.

(** [l[i:]] and [l[:i]] for an index [0 <= i], the only case the scripts
    reach (the index comes from [list_index]). *)
Definition slice_from {A} (l : list A) (i : Z) : list A := drop (Z.to_nat i) l.
Definition slice_to {A} (l : list A) (i : Z) : list A := take (Z.to_nat i) l.

(** [str(n)] for an [int], as an f-string field prints it: decimal digits,
    with a leading minus sign below zero. *)
Definition str_int (n : Z) : string := pretty n.

(** ** Lookup functions *)

Definition month_num : gmap string Z :=
  list_to_map
    [("January", 1); ("February", 2); ("March", 3); ("April", 4);
     ("May", 5); ("June", 6); ("July", 7); ("August", 8);
     ("September", 9); ("October", 10); ("November", 11); ("December", 12)].

Definition get_japanese_era (year : Z) (month : string) : result string :=
  m ← dict_getitem month_num month;
  if year <? 1868 then Ok "Pre-Meiji"
  else if year =? 1868 then
    if m <? 9 then Ok "Pre-Meiji" else Ok "Meiji 1"
  else if year <=? 1911 then
    let era_year := year - 1867 in Ok ("Meiji " +:+ str_int era_year)
  else if year =? 1912 then
    if m <=? 7 then
      let era_year := year - 1867 in Ok ("Meiji " +:+ str_int era_year)
    else Ok "Taisho 1"
  else if year <=? 1925 then
    let era_year := year - 1911 in Ok ("Taisho " +:+ str_int era_year)
  else if year =? 1926 then
    if m <=? 12 then
      let era_year := year - 1911 in Ok ("Taisho " +:+ str_int era_year)
    else Ok "Showa 1"
  else if year <=? 1988 then
    let era_year := year - 1925 in Ok ("Showa " +:+ str_int era_year)
  else if year =? 1989 then
    if m <=? 1 then
      let era_year := year - 1925 in Ok ("Showa " +:+ str_int era_year)
    else Ok "Heisei 1"
  else if year <=? 2018 then
    let era_year := year - 1988 in Ok ("Heisei " +:+ str_int era_year)
  else if year =? 2019 then
    if m <=? 4 then
      let era_year := year - 1988 in Ok ("Heisei " +:+ str_int era_year)
    else Ok "Reiwa 1"
  else
    let era_year := year - 2018 in Ok ("Reiwa " +:+ str_int era_year).

Definition zodiac_animals : list string :=
  ["Rat"; "Ox"; "Tiger"; "Rabbit"; "Dragon"; "Snake";
   "Horse"; "Goat"; "Monkey"; "Rooster"; "Dog"; "Wild Boar"].

(** The [month] argument is accepted and never read, as in the source. *)
Definition get_chinese_zodiac (year : Z) (month : string) : result string :=
  let zodiac_index := (year - 1900) `mod` 12 in
  zodiac_animal ← list_getitem zodiac_animals zodiac_index;
  let zodiac_year := zodiac_index + 1 in
  Ok (zodiac_animal +:+ " Year " +:+ str_int zodiac_year).

Definition western_zodiac : gmap string string :=
  list_to_map
    [("January", "Capricorn/Aquarius"); ("February", "Aquarius/Pisces");
     ("March", "Pisces/Aries"); ("April", "Aries/Taurus");
     ("May", "Taurus/Gemini"); ("June", "Gemini/Cancer");
     ("July", "Cancer/Leo"); ("August", "Leo/Virgo");
     ("September", "Virgo/Libra"); ("October", "Libra/Scorpio");
     ("November", "Scorpio/Sagittarius");
     ("December", "Sagittarius/Capricorn")].

Definition get_western_zodiac (month : string) : string :=
  dict_get western_zodiac month "Unknown".

(** ** The row generator *)

Inductive cell : Type :=
  | CInt (n : Z)
  | CStr (s : string).

Definition season_map : gmap string string :=
  list_to_map
    [("January", "winter"); ("February", "winter"); ("March", "spring");
     ("April", "spring"); ("May", "spring"); ("June", "summer");
     ("July", "summer"); ("August", "summer"); ("September", "autumn");
     ("October", "autumn"); ("November", "autumn"); ("December", "winter")].

Definition months : list string :=
  ["January"; "February"; "March"; "April"; "May"; "June";
   "July"; "August"; "September"; "October"; "November"; "December"].

Definition header : list cell :=
  [CStr "Year"; CStr "Age"; CStr "Season"; CStr "Month";
   CStr "Japanese Era"; CStr "Chinese Zodiac"; CStr "Western Zodiac"].

(** The variables the [while] loop reads and writes. *)
Record loop_state : Type := LoopState {
  current_year : Z;
  month_count : Z;
  all_rows : list (list cell)
}.

(** One pass through the body of the [while] loop. *)
Definition loop_body (rotated_months : list string) (st : loop_state)
    : result loop_state :=
  let years_passed := month_count st `div` 12 in
  let age := years_passed in
  let month_index := month_count st `mod` 12 in
  month ← list_getitem rotated_months month_index;
  season ← dict_getitem season_map month;
  japanese_era ← get_japanese_era (current_year st) month;
  chinese_zodiac ← get_chinese_zodiac (current_year st) month;
  let western_zodiac := get_western_zodiac month in
  let row := [CInt (current_year st); CInt age; CStr season; CStr month;
              CStr japanese_era; CStr chinese_zodiac; CStr western_zodiac] in
  let rows := all_rows st ++ [row] in
  let year' := if String.eqb month "December"
               then current_year st + 1 else current_year st in
  Ok (LoopState year' (month_count st + 1) rows).

(** [while month_count < total_months: body]. The budget bounds the number
    of passes; running out of it is the error [LoopBudget]. *)
Fixpoint while_loop (budget : nat) (total_months : Z)
    (rotated_months : list string) (st : loop_state) : result loop_state :=
  if month_count st <? total_months then
    match budget with
    | O => Raise LoopBudget
    | S budget' =>
        st' ← loop_body rotated_months st;
        while_loop budget' total_months rotated_months st'
    end
  else Ok st.

(** The body of [generate_data] after the name is sanitized (in
    [generate_years_v9.py], the same statements of [main]): the header
    followed by the data rows. *)
Definition generate_all_rows (birth_year : Z) (birth_month : string)
    : result (list (list cell)) :=
  let end_year := birth_year + 100 in
  birth_month_index ← list_index months birth_month;
  let rotated_months :=
    slice_from months birth_month_index ++ slice_to months birth_month_index in
  let rows0 := [] ++ [header] in
  let total_months := (end_year - birth_year + 1) * 12 in
  st ← while_loop (Z.to_nat total_months) total_months rotated_months
         (LoopState birth_year 0 rows0);
  Ok (all_rows st).

(** The data rows, [all_rows[1:]], which is what the specification calls
    [generate]. *)
Definition generate (start_year : Z) (start_month : string)
    : result (list (list cell)) :=
  rows ← generate_all_rows start_year start_month;
  Ok (drop 1 rows).

(** Fields of a row: [row[0]] and [row[3]]. *)
Definition row_year (row : list cell) : option Z :=
  match row !! 0%nat with
  | Some (CInt y) => Some y
  | _ => None
  end.

Definition row_month (row : list cell) : option string :=
  match row !! 3%nat with
  | Some (CStr s) => Some s
  | _ => None
  end.

(** ** The file-name sanitizer *)

(** Code point of an ASCII character, Python's [ord]. *)
Definition ord (c : ascii) : Z := Z.of_N (N_of_ascii c).
Arguments ord c%_char.

(** Code points of an ASCII string literal. *)
Definition codepoints (s : string) : list Z :=
  ord <$> String.list_ascii_of_string s.

(** Members of a bracketed character class of a regular expression. *)
Inductive class_item : Type :=
  | CRange (lo hi : Z)
  | CChar (c : Z).

Definition item_matches (c : Z) (it : class_item) : bool :=
  match it with
  | CRange lo hi => (lo <=? c) && (c <=? hi)
  | CChar x => c =? x
  end.

(** The items of [[^a-zA-Z0-9_-]], in the order the pattern lists them. *)
Definition name_class : list class_item :=
  [CRange (ord "a") (ord "z"); CRange (ord "A") (ord "Z");
   CRange (ord "0") (ord "9"); CChar (ord "_"); CChar (ord "-")].

(** [re.sub(pattern, repl, s)] for a pattern that is one negated class: each
    character outside the class is a match of its own and is replaced by
    [repl]; the others are copied. *)
Definition re_sub_negated_class (items : list class_item) (repl : list Z)
    (s : list Z) : list Z :=
  s ≫= (λ c, if existsb (item_matches c) items then [c] else repl).

Section Sanitizer.

(** [str.lower] of the Python runtime, on strings of code points. *)
Variable str_lower : list Z → list Z.

Definition sanitized_name (name : list Z) : list Z :=
  str_lower (re_sub_negated_class name_class [ord "_"] name).

Definition generate_data (name : list Z) (birth_year : Z)
    (birth_month : string) : result (list Z * list (list cell)) :=
  let sanitized := sanitized_name name in
  rows ← generate_all_rows birth_year birth_month;
  Ok (sanitized, rows).

End Sanitizer.

(** The sanitizer in the words of the specification: a character outside
    [[A-Za-z0-9_-]] becomes an underscore, then the string is lower-cased. *)
Definition in_name_class (c : Z) : bool :=
  ((65 <=? c) && (c <=? 90)) || ((97 <=? c) && (c <=? 122))
  || ((48 <=? c) && (c <=? 57)) || (c =? 95) || (c =? 45).

Definition ascii_lower (c : Z) : Z :=
  if (65 <=? c) && (c <=? 90) then c + 32 else c.

Definition sanitize_spec (s : list Z) : list Z :=
  ascii_lower <$> ((λ c, if in_name_class c then c else 95) <$> s).

(** ** Closed form of the rows

    The row the loop emits at [month_count = n] when the birth month has
    index [b] in [months]; the loop is proved below to produce exactly
    these rows. *)

Definition month_of (b n : Z) : string :=
  nth (Z.to_nat ((n + b) `mod` 12)) months ""%string.

Definition unwrap (r : result string) : string :=
  match r with
  | Ok s => s
  | Raise _ => ""%string
  end.

Definition row_at (Y b n : Z) : list cell :=
  let y := Y + (n + b) `div` 12 in
  let m := month_of b n in
  [CInt y; CInt (n `div` 12); CStr (unwrap (dict_getitem season_map m));
   CStr m; CStr (unwrap (get_japanese_era y m));
   CStr (unwrap (get_chinese_zodiac y m)); CStr (get_western_zodiac m)].

(** ** The rest of the chronology scripts *)

(** [row[1]], the age column. *)
Definition row_age (row : list cell) : option Z :=
  match row !! 1%nat with
  | Some (CInt a) => Some a
  | _ => None
  end.

(** What a prompt of [generate_years_v9.py] leads to: the value is taken,
    or [main] prints a message and returns, or an exception escapes. *)
Inductive prompt_result (A : Type) : Type :=
  | Accepted (a : A)
  | Refused (message : string)
  | Escaped (e : exn).
Arguments Accepted {A} a.
Arguments Refused {A} message.
Arguments Escaped {A} e.

(** [main] of [generate_years_v9.py], the month prompt: the number typed,
    already converted by [int], selects the birth month. *)
Definition birth_month_of_num (birth_month_num : Z) : prompt_result string :=
  if (birth_month_num <? 1) || (12 <? birth_month_num)
  then Refused "Error: Month must be between 1 and 12"
  else match list_getitem months (birth_month_num - 1) with
       | Ok birth_month => Accepted birth_month
       | Raise e => Escaped e
       end.

(** [main] of [generate_years_v9.py]: the month and the year its message
    "Ending at: ..." prints after the file is written. *)
Definition ending_at (birth_year : Z) (birth_month : string)
    : result (string * Z) :=
  let end_year := birth_year + 100 in
  birth_month_index ← list_index months birth_month;
  ending_month ← list_getitem months ((birth_month_index - 1) `mod` 12);
  Ok (ending_month, end_year).

(** The names of the files offered: [f"{sanitized_name}_chronology.csv"]
    and [f"{sanitized_name}_chronology.xlsx"]. *)
Definition csv_filename (sanitized_name : list Z) : list Z :=
  sanitized_name ++ codepoints "_chronology.csv".

Definition xlsx_filename (sanitized_name : list Z) : list Z :=
  sanitized_name ++ codepoints "_chronology.xlsx".

(** [main] of [generate_years_v14_streamlit.py], the preview. *)

(** [all_rows[:6]]. *)
Definition preview_first (rows : list (list cell)) : list (list cell) :=
  slice_to rows 6.

(** [row[0] <= current_year]; [None] stands for the exception Python raises
    when the row is empty or its first cell is a [str]. *)
Definition year_le (row : list cell) (current_year : Z) : option bool :=
  match row with
  | CInt y :: _ => Some (y <=? current_year)
  | _ => None
  end.

(** The loop that collects [present_day_rows] from [all_rows[1:]]; the rows
    kept stay in the order they are met. *)
Fixpoint present_day_rows (rows : list (list cell)) (current_year : Z)
    : option (list (list cell)) :=
  match rows with
  | [] => Some []
  | row :: rows' =>
      keep ← year_le row current_year;
      rest ← present_day_rows rows' current_year;
      Some (if keep : bool then row :: rest else rest)
  end.

(** [present_day_rows[-3:]] when there are more than three rows. *)
Definition preview_last (present : list (list cell)) : list (list cell) :=
  if 3 <? Z.of_nat (length present)
  then drop (length present - 3) present
  else present.

(** ** Row shading of the workbook ([generate_years_v14_streamlit.py]) *)

Record PatternFill : Type := mkPatternFill {
  start_color : string;
  end_color : string;
  fill_type : string
}.

(** [x in l] for a list of strings. *)
Definition list_contains (l : list string) (x : string) : bool :=
  existsb (String.eqb x) l.

Definition get_month_fill (month : string) : option PatternFill :=
  let spring_months := ["March"; "April"; "May"] in
  let autumn_months := ["September"; "October"; "November"] in
  if list_contains spring_months month then
    Some (mkPatternFill "C6EFCE" "C6EFCE" "solid")
  else if list_contains autumn_months month then
    Some (mkPatternFill "FFC7CE" "FFC7CE" "solid")
  else None.

(** The part of a worksheet [generate_excel] writes: the rows appended, and
    the fill of each cell that was given one, by sheet row and column
    (both counted from 1). *)
Record worksheet : Type := Worksheet {
  ws_rows : list (list cell);
  ws_fill : gmap (Z * Z) PatternFill
}.

(** [for col in range(1, 8): ws.cell(row=row_idx, column=col).fill = fill]. *)
Definition fill_row (fills : gmap (Z * Z) PatternFill) (row_idx : Z)
    (fill : PatternFill) : gmap (Z * Z) PatternFill :=
  foldl (λ f col, <[(row_idx, col) := fill]> f) fills (seqZ 1 7).

(** One pass of the loop over the data rows. A month cell that is not a
    [str] is in neither list of month names, so it gets no fill. *)
Definition excel_data_row (ws : worksheet) (row_idx : Z) (row : list cell)
    : result worksheet :=
  let rows := ws_rows ws ++ [row] in
  month ← list_getitem row 3;
  let fill := match month with
              | CStr s => get_month_fill s
              | CInt _ => None
              end in
  match fill with
  | Some f => Ok (Worksheet rows (fill_row (ws_fill ws) row_idx f))
  | None => Ok (Worksheet rows (ws_fill ws))
  end.

(** [for row_idx, row in enumerate(rows, start=row_idx): ...]. *)
Fixpoint excel_data_rows (ws : worksheet) (row_idx : Z)
    (rows : list (list cell)) : result worksheet :=
  match rows with
  | [] => Ok ws
  | row :: rows' =>
      ws' ← excel_data_row ws row_idx row;
      excel_data_rows ws' (row_idx + 1) rows'
  end.

(** [generate_excel] up to the end of the loop over the data rows: the
    header is appended, then the data rows are appended and shaded. The
    fonts, the column widths and the encoding of the file are left out. *)
Definition generate_excel_sheet (all_rows : list (list cell))
    : result worksheet :=
  header_row ← list_getitem all_rows 0;
  let ws := Worksheet [header_row] ∅ in
  excel_data_rows ws 2 (slice_from all_rows 1).

(** ** The PDF and image mergers

    [mergepdf_streamlit.py], [mergepdf_streamlit_v2.py] and
    [images_to_pdf_streamlit.py]: the parts that do not go through the PDF
    and image libraries. Titles are strings of code points. *)

(** [create_cover_page] of the PDF mergers: the title printed for entry
    [idx] of the list. *)
Definition cover_doc_title (title : list Z) (idx : Z) : list Z :=
  let doc_title :=
    match title with
    | [] => codepoints ("Document " +:+ str_int idx)
    | _ => title
    end in
  if 70 <? Z.of_nat (length doc_title)
  then slice_to doc_title 67 ++ codepoints "..."
  else doc_title.

(** [a or b] on strings, where [a] may also be [None]. *)
Definition str_or (a : option (list Z)) (b : list Z) : list Z :=
  match a with
  | Some (c :: s) => c :: s
  | _ => b
  end.

(** [create_cover_page] of [images_to_pdf_streamlit.py]: the title printed
    for an entry, from [info.get("title")] and [info["filename"]]. *)
Definition image_cover_title (title : option (list Z)) (filename : list Z)
    : list Z :=
  let title' := slice_to (str_or title filename) 70 in
  if 70 <? Z.of_nat (length (str_or title filename))
  then title' ++ codepoints "..."
  else title'.

(** [sorted(l, key=key)]: ascending in the key, elements of equal key kept
    in their order. Insertion from the right end does exactly that. *)
Fixpoint insert_sorted {A} (key : A → Z) (x : A) (l : list A) : list A :=
  match l with
  | [] => [x]
  | y :: l' =>
      if key x <=? key y then x :: y :: l' else y :: insert_sorted key x l'
  end.

Definition py_sorted {A} (key : A → Z) (l : list A) : list A :=
  foldr (insert_sorted key) [] l.

Section Session.

(** An uploaded file and the dict of a processed file are kept abstract;
    what the scripts read of them is [f.name], [info['filename']] and
    [info['date']]. A [datetime] is the integer that orders it, and
    [datetime_max] is that of [datetime.max]. *)
Context {upload info : Type}.
Variable name_of : upload → string.
Variable filename_of : info → string.
Variable date_of : info → option Z.
Variable datetime_max : Z.

(** [extract_pdf_metadata] (or [extract_image_metadata]) followed by the
    test ['error' not in info]: [None] when the file cannot be read. *)
Variable extract : upload → string → option info.

(** The block "Process uploaded files": the files whose name is not yet
    among the processed ones are read, and those that can be read are
    appended to [st.session_state.processed_files]. *)
Definition process_uploads (processed_files : list info)
    (uploaded_files : list upload) : list info :=
  let existing_filenames := filename_of <$> processed_files in
  let new_files :=
    List.filter (λ f, negb (list_contains existing_filenames (name_of f)))
      uploaded_files in
  foldl (λ files f,
           match extract f (name_of f) with
           | Some i => files ++ [i]
           | None => files
           end) processed_files new_files.

(** The remove button: [[f for f in processed_files
    if f['filename'] != info['filename']]]. *)
Definition remove_file (processed_files : list info) (filename : string)
    : list info :=
  List.filter (λ f, negb (String.eqb (filename_of f) filename))
    processed_files.

(** [lambda x: x['date'] if x['date'] else datetime.max]. *)
Definition date_key (x : info) : Z :=
  match date_of x with
  | Some d => d
  | None => datetime_max
  end.

Definition sorted_files (processed_files : list info) : list info :=
  py_sorted date_key processed_files.

(** Whether a processed file carries a date. *)
Definition dated (x : info) : bool :=
  match date_of x with
  | Some _ => true
  | None => false
  end.

End Session.

(** ** Definitions used to state the properties *)

(** The two fills of [get_month_fill]. *)
Definition green_fill : PatternFill := mkPatternFill "C6EFCE" "C6EFCE" "solid".
Definition red_fill : PatternFill := mkPatternFill "FFC7CE" "FFC7CE" "solid".

(** The fill that goes with a season name. *)
Definition fill_of_season (season : string) : option PatternFill :=
  if String.eqb season "spring" then Some green_fill
  else if String.eqb season "autumn" then Some red_fill
  else None.

(** The fill the loop over [rows], started at sheet row [row_idx], gives to
    the cell in sheet row [r] and column [c]. *)
Definition new_fill (rows : list (list cell)) (row_idx r c : Z)
    : option PatternFill :=
  if decide (row_idx ≤ r ∧ 1 ≤ c ≤ 7)
  then (rows !! Z.to_nat (r - row_idx) ≫= row_month) ≫= get_month_fill
  else None.

(** A character of [[a-z0-9_-]]. *)
Definition is_file_char (c : Z) : Prop :=
  97 ≤ c ≤ 122 ∨ 48 ≤ c ≤ 57 ∨ c = 95 ∨ c = 45.

(** * Properties *)

(** ** Sample runs *)

Example era_1990_June : get_japanese_era 1990 "June" = Ok "Heisei 2"%string.
Proof. vm_compute. reflexivity. Qed.

Example era_unknown_month :
  get_japanese_era 1990 "Juno" = Raise (KeyError "Juno").
Proof. vm_compute. reflexivity. Qed.

Example zodiac_1990 : get_chinese_zodiac 1990 "June" = Ok "Horse Year 7"%string.
Proof. vm_compute. reflexivity. Qed.

Example zodiac_before_1900 :
  get_chinese_zodiac 1899 "June" = Ok "Wild Boar Year 12"%string.
Proof. vm_compute. reflexivity. Qed.

Example western_January :
  get_western_zodiac "January" = "Capricorn/Aquarius"%string.
Proof. vm_compute. reflexivity. Qed.

Example generate_unknown_month : generate 1990 "Juno" = Raise ValueError.
Proof. vm_compute. reflexivity. Qed.

(** ** Era lookup *)

Lemma month_num_canonical m :
  In m months → ∃ k, dict_getitem month_num m = Ok k ∧ 1 ≤ k ≤ 12.
Proof.
  unfold months. simpl. intros H.
  repeat (destruct H as [<- | H]; [eexists; split; [vm_compute; reflexivity | lia] |]).
  destruct H.
Qed.

Lemma str_int_eq_1 n : str_int n = "1" → n = 1.
Proof.
  unfold str_int. change "1"%string with (pretty 1). apply (inj pretty).
Qed.

Lemma era_not_Showa_1 y k :
  k ≤ 12 →
  (Ok k ≫= λ m : Z,
    if y <? 1868 then Ok "Pre-Meiji"
    else if y =? 1868 then
      if m <? 9 then Ok "Pre-Meiji" else Ok "Meiji 1"
    else if y <=? 1911 then Ok ("Meiji " +:+ str_int (y - 1867))
    else if y =? 1912 then
      if m <=? 7 then Ok ("Meiji " +:+ str_int (y - 1867)) else Ok "Taisho 1"
    else if y <=? 1925 then Ok ("Taisho " +:+ str_int (y - 1911))
    else if y =? 1926 then
      if m <=? 12 then Ok ("Taisho " +:+ str_int (y - 1911)) else Ok "Showa 1"
    else if y <=? 1988 then Ok ("Showa " +:+ str_int (y - 1925))
    else if y =? 1989 then
      if m <=? 1 then Ok ("Showa " +:+ str_int (y - 1925)) else Ok "Heisei 1"
    else if y <=? 2018 then Ok ("Heisei " +:+ str_int (y - 1988))
    else if y =? 2019 then
      if m <=? 4 then Ok ("Heisei " +:+ str_int (y - 1988)) else Ok "Reiwa 1"
    else Ok ("Reiwa " +:+ str_int (y - 2018)))
  ≠ Ok "Showa 1"%string.
Proof.
  intros Hk. simpl.
  repeat case_match; try discriminate; try lia;
    intros [= Eq1%str_int_eq_1]; lia.
Qed.

(** C2: the era lookup takes the stated values on both sides of each of the
    four era boundaries (September 1868, August 1912, February 1989,
    May 2019). *)
Theorem era_boundary_values :
  get_japanese_era 1868 "August" = Ok "Pre-Meiji"%string
  ∧ get_japanese_era 1868 "September" = Ok "Meiji 1"%string
  ∧ get_japanese_era 1912 "July" = Ok "Meiji 45"%string
  ∧ get_japanese_era 1912 "August" = Ok "Taisho 1"%string
  ∧ get_japanese_era 1989 "January" = Ok "Showa 64"%string
  ∧ get_japanese_era 1989 "February" = Ok "Heisei 1"%string
  ∧ get_japanese_era 2019 "April" = Ok "Heisei 31"%string
  ∧ get_japanese_era 2019 "May" = Ok "Reiwa 1"%string.
Proof. repeat split; vm_compute; reflexivity. Qed.

(** C6: in 1926 every canonical month is labelled "Taisho 15", and no year
    with a canonical month is ever labelled "Showa 1": the branch that would
    return it asks for a month number above 12. *)
Theorem era_1926_always_Taisho m :
  In m months →
  get_japanese_era 1926 m = Ok "Taisho 15"%string
  ∧ (∀ y, get_japanese_era y m ≠ Ok "Showa 1"%string).
Proof.
  intros Hm. destruct (month_num_canonical m Hm) as (k & Hk & Hr).
  split.
  - unfold get_japanese_era. rewrite Hk. simpl.
    assert ((k <=? 12) = true) as -> by lia. vm_compute. reflexivity.
  - intros y. unfold get_japanese_era. rewrite Hk.
    apply era_not_Showa_1. lia.
Qed.

Lemma era_1926_always_Taisho_witness :
  get_japanese_era 1926 "December" = Ok "Taisho 15"%string
  ∧ (∀ y, get_japanese_era y "December" ≠ Ok "Showa 1"%string).
Proof. apply (era_1926_always_Taisho "December"). simpl. tauto. Defined.

(** ** Chinese zodiac *)

(** C7, as the code has it: the twelfth animal of the cycle is "Wild Boar",
    so 1911 is labelled "Wild Boar Year 12". *)
Theorem chinese_zodiac_1911 month :
  get_chinese_zodiac 1911 month = Ok "Wild Boar Year 12"%string.
Proof. vm_compute. reflexivity. Qed.

(** C7, as stated, fails: the label of 1911 is not
    "Pig/Boar-cycle Year 12". *)
Lemma zodiac_label_of_1911_is_not_Pig :
  get_chinese_zodiac 1911 "January" ≠ Ok "Pig/Boar-cycle Year 12"%string.
Proof. vm_compute. discriminate. Qed.

(** C8: the Chinese zodiac label has period 12 in the year, and 1900 and
    1912 are both "Rat Year 1". *)
Theorem chinese_zodiac_period_12 :
  (∀ y month, get_chinese_zodiac (y + 12) month = get_chinese_zodiac y month)
  ∧ (∀ month, get_chinese_zodiac 1900 month = Ok "Rat Year 1"%string)
  ∧ (∀ month, get_chinese_zodiac 1912 month = Ok "Rat Year 1"%string).
Proof.
  split; [| split; intros; vm_compute; reflexivity].
  intros y month. unfold get_chinese_zodiac.
  replace (y + 12 - 1900) with (y - 1900 + 1 * 12) by lia.
  rewrite Z.mod_add by lia. reflexivity.
Qed.

(** ** Western zodiac *)

(** C10: a string that is not one of the twelve month names is answered
    with "Unknown"; the lookup raises nothing. *)
Theorem western_zodiac_unknown month :
  ¬ In month months → get_western_zodiac month = "Unknown"%string.
Proof.
  intros Hm. unfold get_western_zodiac, dict_get, western_zodiac.
  rewrite (not_elem_of_list_to_map_1 _ month); [reflexivity |].
  intros Hin. apply Hm. apply list_elem_of_In in Hin. exact Hin.
Qed.

Lemma western_zodiac_unknown_witness :
  get_western_zodiac "Smarch" = "Unknown"%string.
Proof.
  apply (western_zodiac_unknown "Smarch").
  simpl. intros H. repeat (destruct H as [H | H]; [discriminate H |]). exact H.
Defined.

(** ** The loop of the row generator *)

Ltac small_cases x lo hi :=
  let H := fresh in
  assert (H : x = lo ∨ lo + 1 ≤ x < hi) by lia;
  destruct H as [-> | H];
  [| first [ exfalso; lia | small_cases x ltac:(eval vm_compute in (lo + 1)) hi ] ].

Lemma list_index_months m :
  In m months → ∃ b, list_index months m = Ok b ∧ 0 ≤ b < 12.
Proof.
  unfold months. simpl. intros H.
  repeat (destruct H as [<- | H]; [eexists; split; [vm_compute; reflexivity | lia] |]).
  destruct H.
Qed.

Lemma month_of_mod b n : month_of b (n `mod` 12) = month_of b n.
Proof. unfold month_of. rewrite Zplus_mod_idemp_l. reflexivity. Qed.

Lemma month_of_canonical b n : In (month_of b n) months.
Proof.
  unfold month_of.
  assert (0 ≤ (n + b) `mod` 12 < 12) as Hr by (apply Z.mod_pos_bound; lia).
  generalize dependent ((n + b) `mod` 12). intros k Hk.
  small_cases k 0 12; simpl; tauto.
Qed.

Lemma rotated_getitem b k :
  0 ≤ b < 12 → 0 ≤ k < 12 →
  list_getitem (slice_from months b ++ slice_to months b) k
  = Ok (month_of b k).
Proof.
  intros Hb Hk.
  small_cases b 0 12; small_cases k 0 12; vm_compute; reflexivity.
Qed.

Lemma rotated_getitem_mod b n :
  0 ≤ b < 12 →
  list_getitem (slice_from months b ++ slice_to months b) (n `mod` 12)
  = Ok (month_of b n).
Proof.
  intros Hb. rewrite rotated_getitem, month_of_mod; [reflexivity | lia |].
  apply Z.mod_pos_bound. lia.
Qed.

Lemma month_of_December b n :
  String.eqb (month_of b n) "December" = ((n + b) `mod` 12 =? 11).
Proof.
  unfold month_of.
  assert (0 ≤ (n + b) `mod` 12 < 12) as Hr by (apply Z.mod_pos_bound; lia).
  generalize dependent ((n + b) `mod` 12). intros k Hk.
  small_cases k 0 12; reflexivity.
Qed.

Lemma season_defined m :
  In m months → ∃ s, dict_getitem season_map m = Ok s.
Proof.
  unfold months. simpl. intros H.
  repeat (destruct H as [<- | H]; [eexists; vm_compute; reflexivity |]).
  destruct H.
Qed.

Lemma era_defined y m :
  In m months → ∃ s, get_japanese_era y m = Ok s.
Proof.
  intros Hm. destruct (month_num_canonical m Hm) as (k & Hk & _).
  unfold get_japanese_era. rewrite Hk. simpl.
  repeat case_match; eexists; reflexivity.
Qed.

Lemma chinese_zodiac_defined y month :
  ∃ s, get_chinese_zodiac y month = Ok s.
Proof.
  unfold get_chinese_zodiac.
  assert (0 ≤ (y - 1900) `mod` 12 < 12) as Hr by (apply Z.mod_pos_bound; lia).
  generalize dependent ((y - 1900) `mod` 12). intros k Hk.
  small_cases k 0 12; eexists; vm_compute; reflexivity.
Qed.

Lemma year_step Y b n :
  (if (n + b) `mod` 12 =? 11
   then Y + (n + b) `div` 12 + 1 else Y + (n + b) `div` 12)
  = Y + (n + 1 + b) `div` 12.
Proof.
  destruct (Z.eqb_spec ((n + b) `mod` 12) 11);
    Z.div_mod_to_equations; lia.
Qed.

Lemma loop_body_step Y b n rs :
  0 ≤ b < 12 →
  loop_body (slice_from months b ++ slice_to months b)
    (LoopState (Y + (n + b) `div` 12) n rs)
  = Ok (LoopState (Y + (n + 1 + b) `div` 12) (n + 1) (rs ++ [row_at Y b n])).
Proof.
  intros Hb. unfold loop_body, row_at. simpl.
  rewrite rotated_getitem_mod by assumption. simpl.
  pose proof (month_of_canonical b n) as Hm.
  destruct (season_defined _ Hm) as [s ->].
  destruct (era_defined (Y + (n + b) `div` 12) _ Hm) as [e ->].
  destruct (chinese_zodiac_defined (Y + (n + b) `div` 12) (month_of b n))
    as [z ->].
  simpl. rewrite month_of_December, year_step. reflexivity.
Qed.

Lemma while_loop_run Y b (k : nat) :
  0 ≤ b < 12 →
  ∀ n rs budget, (k ≤ budget)%nat →
  while_loop budget (n + Z.of_nat k) (slice_from months b ++ slice_to months b)
    (LoopState (Y + (n + b) `div` 12) n rs)
  = Ok (LoopState (Y + (n + Z.of_nat k + b) `div` 12) (n + Z.of_nat k)
          (rs ++ (row_at Y b <$> seqZ n (Z.of_nat k)))).
Proof.
  intros Hb. induction k as [| k IH]; intros n rs budget Hbudget.
  - rewrite Z.add_0_r. destruct budget; simpl;
      rewrite Z.ltb_irrefl, app_nil_r; reflexivity.
  - destruct budget as [| budget]; [lia |].
    rewrite Nat2Z.inj_succ, (seqZ_cons n) by lia. rewrite Z.pred_succ.
    replace (n + Z.succ (Z.of_nat k)) with (n + 1 + Z.of_nat k) by lia.
    replace (Z.succ n) with (n + 1) by lia.
    cbn [while_loop month_count].
    assert ((n <? n + 1 + Z.of_nat k) = true) as -> by (apply Z.ltb_lt; lia).
    rewrite loop_body_step by assumption. cbn [mbind result_bind].
    rewrite IH by lia. rewrite <- app_assoc. reflexivity.
Qed.

(** The generator returns, for every year and canonical month, the header
    followed by the rows [row_at Y b 0 .. row_at Y b 1211]. *)
Lemma generate_closed_form Y m :
  In m months →
  ∃ b, 0 ≤ b < 12 ∧ list_index months m = Ok b
       ∧ generate_all_rows Y m = Ok (header :: (row_at Y b <$> seqZ 0 1212))
       ∧ generate Y m = Ok (row_at Y b <$> seqZ 0 1212).
Proof.
  intros Hm. destruct (list_index_months m Hm) as (b & Hidx & Hb).
  exists b. split; [assumption |]. split; [assumption |].
  assert (generate_all_rows Y m = Ok (header :: (row_at Y b <$> seqZ 0 1212)))
    as Hall.
  { pose proof (while_loop_run Y b 1212 Hb 0 [header] 1212%nat (le_n _))
      as Hrun.
    change (0 + Z.of_nat 1212) with 1212 in Hrun.
    rewrite Z.add_0_l, (Z.div_small b 12), Z.add_0_r in Hrun by lia.
    unfold generate_all_rows. rewrite Hidx. simpl mbind.
    replace ((Y + 100 - Y + 1) * 12) with 1212 by lia.
    change (Z.to_nat 1212) with 1212%nat.
    rewrite Hrun. reflexivity. }
  split; [exact Hall |]. unfold generate. rewrite Hall. reflexivity.
Qed.

Lemma row_at_lookup Y b (i : nat) r :
  (row_at Y b <$> seqZ 0 1212) !! i = Some r →
  r = row_at Y b (Z.of_nat i) ∧ 0 ≤ Z.of_nat i < 1212.
Proof.
  rewrite list_lookup_fmap. intros H.
  apply fmap_Some in H as (n & Hn & ->).
  apply lookup_seqZ in Hn as [-> Hi]. split; [reflexivity | lia].
Qed.

Lemma row_at_In Y b r :
  In r (row_at Y b <$> seqZ 0 1212) → ∃ n, r = row_at Y b n ∧ 0 ≤ n < 1212.
Proof.
  intros H. apply list_elem_of_In, list_elem_of_fmap in H as (n & -> & Hn).
  apply elem_of_seqZ in Hn. exists n. split; [reflexivity | lia].
Qed.

(** ** Claims about the generated sequence *)

(** C3: for every start year and canonical start month the generator
    returns the header followed by exactly 1212 data rows. *)
Theorem generate_1212_rows Y m :
  In m months →
  ∃ rows, generate_all_rows Y m = Ok (header :: rows)
          ∧ generate Y m = Ok rows ∧ length rows = 1212%nat.
Proof.
  intros Hm. destruct (generate_closed_form Y m Hm) as (b & _ & _ & Hall & Hgen).
  eexists. split; [exact Hall |]. split; [exact Hgen |].
  rewrite length_fmap, length_seqZ. reflexivity.
Qed.

Lemma generate_1212_rows_witness :
  ∃ rows, generate_all_rows 1990 "June" = Ok (header :: rows)
          ∧ generate 1990 "June" = Ok rows ∧ length rows = 1212%nat.
Proof. apply (generate_1212_rows 1990 "June"). simpl. tauto. Defined.

(** C1, as the code has it: every row's year lies between the start year
    [Y] and [Y + 101]; it stays within [Y + 100] when the start month is
    January, and for every other start month the last row has year
    [Y + 101]. *)
Theorem generate_year_bounds Y m :
  In m months →
  ∃ rows, generate Y m = Ok rows
    ∧ (∀ r, In r rows → ∃ y, row_year r = Some y ∧ Y ≤ y ≤ Y + 101
                              ∧ (m = "January"%string → y ≤ Y + 100))
    ∧ (m ≠ "January"%string →
       ∃ r, rows !! 1211%nat = Some r ∧ row_year r = Some (Y + 101)).
Proof.
  intros Hm.
  destruct (generate_closed_form Y m Hm) as (b & Hb & Hidx & _ & Hgen).
  eexists. split; [exact Hgen |]. split.
  - intros r Hr. apply row_at_In in Hr as (n & -> & Hn).
    exists (Y + (n + b) `div` 12). split; [reflexivity |]. split.
    + Z.div_mod_to_equations. lia.
    + intros ->. vm_compute in Hidx. injection Hidx as <-.
      Z.div_mod_to_equations. lia.
  - intros Hne. exists (row_at Y b 1211). split.
    + rewrite list_lookup_fmap.
      replace (seqZ 0 1212 !! 1211%nat) with (Some 1211); [reflexivity |].
      symmetry. apply lookup_seqZ. lia.
    + assert (b ≠ 0) as Hb0.
      { intros ->. apply Hne. unfold months in Hm. simpl in Hm.
        repeat (destruct Hm as [<- | Hm];
                [first [reflexivity | vm_compute in Hidx; discriminate Hidx] |]).
        destruct Hm. }
      unfold row_year, row_at. simpl. f_equal. f_equal.
      Z.div_mod_to_equations. lia.
Qed.

Lemma generate_year_bounds_witness :
  ∃ rows, generate 1990 "June" = Ok rows
    ∧ (∀ r, In r rows → ∃ y, row_year r = Some y ∧ 1990 ≤ y ≤ 1990 + 101
                              ∧ ("June"%string = "January"%string
                                 → y ≤ 1990 + 100))
    ∧ ("June"%string ≠ "January"%string →
       ∃ r, rows !! 1211%nat = Some r ∧ row_year r = Some (1990 + 101)).
Proof. apply (generate_year_bounds 1990 "June"). simpl. tauto. Defined.

(** C1, as stated, fails: started in June 1990 the sequence runs to May
    2091, so its last rows carry a year above 1990 + 100. *)
Lemma generate_1990_June_exceeds_2090 :
  ¬ (∀ rows r y, generate 1990 "June" = Ok rows → In r rows →
                 row_year r = Some y → 1990 ≤ y ≤ 1990 + 100).
Proof.
  intros Hclaim.
  destruct (generate_closed_form 1990 "June") as (b & _ & Hidx & _ & Hgen);
    [simpl; tauto |].
  vm_compute in Hidx. injection Hidx as <-.
  specialize (Hclaim _ (row_at 1990 5 1207) 2091 Hgen).
  assert (1990 ≤ 2091 ≤ 1990 + 100) as Hbad; [| lia].
  apply Hclaim; [| reflexivity].
  apply list_elem_of_In, list_elem_of_fmap. exists 1207.
  split; [reflexivity |]. apply elem_of_seqZ. lia.
Qed.

(** C4: the first row carries the start year; from one row to the next the
    year grows by exactly one after a December row and is unchanged after
    any other row. *)
Theorem generate_year_steps Y m :
  In m months →
  ∃ rows, generate Y m = Ok rows
    ∧ (∃ r0, rows !! 0%nat = Some r0 ∧ row_year r0 = Some Y)
    ∧ ∀ (i : nat) r r',
        rows !! i = Some r → rows !! S i = Some r' →
        ∃ y y' mo, row_year r = Some y ∧ row_year r' = Some y'
                   ∧ row_month r = Some mo
                   ∧ (mo = "December"%string → y' = y + 1)
                   ∧ (mo ≠ "December"%string → y' = y).
Proof.
  intros Hm.
  destruct (generate_closed_form Y m Hm) as (b & Hb & _ & _ & Hgen).
  eexists. split; [exact Hgen |]. split.
  - exists (row_at Y b 0). split; [reflexivity |].
    unfold row_year, row_at. simpl. rewrite Z.div_small by lia.
    f_equal. lia.
  - intros i r r' Hr Hr'.
    apply row_at_lookup in Hr as [-> Hi].
    apply row_at_lookup in Hr' as [-> Hi'].
    exists (Y + (Z.of_nat i + b) `div` 12),
           (Y + (Z.of_nat (S i) + b) `div` 12), (month_of b (Z.of_nat i)).
    split; [reflexivity |]. split; [reflexivity |]. split; [reflexivity |].
    pose proof (year_step Y b (Z.of_nat i)) as Hstep.
    rewrite <- month_of_December in Hstep.
    replace (Z.of_nat (S i)) with (Z.of_nat i + 1) by lia.
    destruct (String.eqb_spec (month_of b (Z.of_nat i)) "December")
      as [Heq | Hne].
    + split; [intros _; lia | intros Hc; contradiction].
    + split; [intros Hc; contradiction | intros _; lia].
Qed.

Lemma generate_year_steps_witness :
  ∃ rows, generate 1990 "June" = Ok rows
    ∧ (∃ r0, rows !! 0%nat = Some r0 ∧ row_year r0 = Some 1990)
    ∧ ∀ (i : nat) r r',
        rows !! i = Some r → rows !! S i = Some r' →
        ∃ y y' mo, row_year r = Some y ∧ row_year r' = Some y'
                   ∧ row_month r = Some mo
                   ∧ (mo = "December"%string → y' = y + 1)
                   ∧ (mo ≠ "December"%string → y' = y).
Proof. apply (generate_year_steps 1990 "June"). simpl. tauto. Defined.

(** C5: the sequence started in June 1990 opens with the June 1990 row, has
    the December 1990 row at index 6 and the January 1991 row, still at age
    0, at index 7. *)
Theorem generate_1990_June_scenario :
  ∃ rows, generate 1990 "June" = Ok rows
    ∧ rows !! 0%nat
      = Some [CInt 1990; CInt 0; CStr "summer"; CStr "June"; CStr "Heisei 2";
              CStr "Horse Year 7"; CStr "Gemini/Cancer"]
    ∧ rows !! 6%nat
      = Some [CInt 1990; CInt 0; CStr "winter"; CStr "December";
              CStr "Heisei 2"; CStr "Horse Year 7";
              CStr "Sagittarius/Capricorn"]
    ∧ rows !! 7%nat
      = Some [CInt 1991; CInt 0; CStr "winter"; CStr "January";
              CStr "Heisei 3"; CStr "Goat Year 8"; CStr "Capricorn/Aquarius"].
Proof.
  destruct (generate_closed_form 1990 "June") as (b & _ & Hidx & _ & Hgen);
    [simpl; tauto |].
  vm_compute in Hidx. injection Hidx as <-.
  eexists. split; [exact Hgen |].
  repeat split; vm_compute; reflexivity.
Qed.

(** ** The file-name sanitizer *)

Lemma name_class_matches c :
  existsb (item_matches c) name_class = in_name_class c.
Proof.
  unfold name_class, in_name_class. cbn. rewrite orb_false_r.
  change (ord "a") with 97. change (ord "z") with 122.
  change (ord "A") with 65. change (ord "Z") with 90.
  change (ord "0") with 48. change (ord "9") with 57.
  change (ord "_") with 95. change (ord "-") with 45.
  destruct ((97 <=? c) && (c <=? 122)), ((65 <=? c) && (c <=? 90)),
    ((48 <=? c) && (c <=? 57)), (c =? 95), (c =? 45); reflexivity.
Qed.

Lemma re_sub_name_class s :
  re_sub_negated_class name_class [ord "_"] s
  = (λ c, if in_name_class c then c else 95) <$> s.
Proof.
  unfold re_sub_negated_class. induction s as [| c s IH]; [reflexivity |].
  cbn [mbind list_bind fmap list_fmap]. rewrite name_class_matches.
  cbn [fmap list_fmap mbind] in IH. rewrite IH.
  destruct (in_name_class c); reflexivity.
Qed.

Lemma substituted_is_ascii s :
  Forall (λ c, 0 ≤ c < 128) ((λ c, if in_name_class c then c else 95) <$> s).
Proof.
  apply Forall_fmap, Forall_forall. intros c _. simpl.
  destruct (in_name_class c) eqn:Hc; [| lia].
  unfold in_name_class in Hc. lia.
Qed.

Section SanitizerProperties.

Variable str_lower : list Z → list Z.

(** What is assumed of [str.lower]: on a string of ASCII characters it maps
    [A-Z] to [a-z] and leaves every other character as it is. *)
Hypothesis str_lower_ascii :
  ∀ s, Forall (λ c, 0 ≤ c < 128) s → str_lower s = ascii_lower <$> s.

(** C9: the sanitized name is the input with every character outside
    [[A-Za-z0-9_-]] replaced by an underscore, then lower-cased. *)
Theorem sanitized_name_spec name :
  sanitized_name str_lower name = sanitize_spec name.
Proof.
  unfold sanitized_name, sanitize_spec. rewrite re_sub_name_class.
  apply str_lower_ascii, substituted_is_ascii.
Qed.

End SanitizerProperties.

Lemma sanitized_name_spec_witness :
  sanitized_name (fmap ascii_lower) (codepoints "Marie-Claire O'Neil 3rd")
  = sanitize_spec (codepoints "Marie-Claire O'Neil 3rd")
  ∧ sanitize_spec (codepoints "Marie-Claire O'Neil 3rd")
    = codepoints "marie-claire_o_neil_3rd".
Proof.
  split; [| vm_compute; reflexivity].
  apply (sanitized_name_spec (fmap ascii_lower)).
  intros s _. reflexivity.
Defined.

(** * Further properties of the scripts *)

(** ** Errors of the lookups and of the generator *)

Lemma list_index_absent l x : ¬ In x l → list_index l x = Raise ValueError.
Proof.
  induction l as [| y l IH]; intros Hx; [reflexivity |]. simpl.
  destruct (String.eqb_spec y x) as [-> | _]; [destruct Hx; left; reflexivity |].
  rewrite IH; [reflexivity |]. intros Hin. apply Hx. right. exact Hin.
Qed.

Lemma month_num_absent m : ¬ In m months → month_num !! m = None.
Proof.
  intros Hm. apply not_elem_of_list_to_map_1.
  intros Hin. apply Hm, list_elem_of_In. exact Hin.
Qed.

(** X1: a month name outside the twelve makes the era lookup raise
    [KeyError] on that name, whatever the year, also for a year before 1868
    whose label would not depend on the month. *)
Theorem era_unknown_month_raises y m :
  ¬ In m months → get_japanese_era y m = Raise (KeyError m).
Proof.
  intros Hm. unfold get_japanese_era, dict_getitem.
  rewrite month_num_absent by assumption. reflexivity.
Qed.

Lemma era_unknown_month_raises_witness :
  get_japanese_era 1700 "Brumaire" = Raise (KeyError "Brumaire").
Proof.
  apply (era_unknown_month_raises 1700 "Brumaire").
  simpl. intros H. repeat (destruct H as [H | H]; [discriminate H |]). exact H.
Defined.

(** X2: with a start month outside the twelve, the generator raises
    [ValueError] (from [months.index]) before it emits any row. *)
Theorem generate_unknown_month_raises Y m :
  ¬ In m months →
  generate_all_rows Y m = Raise ValueError
  ∧ generate Y m = Raise ValueError
  ∧ ∀ str_lower name, generate_data str_lower name Y m = Raise ValueError.
Proof.
  intros Hm.
  assert (generate_all_rows Y m = Raise ValueError) as Hall.
  { unfold generate_all_rows. rewrite list_index_absent by assumption.
    reflexivity. }
  split; [exact Hall |]. split.
  - unfold generate. rewrite Hall. reflexivity.
  - intros str_lower name. unfold generate_data. rewrite Hall. reflexivity.
Qed.

Lemma generate_unknown_month_raises_witness :
  generate_all_rows 1990 "june" = Raise ValueError
  ∧ generate 1990 "june" = Raise ValueError
  ∧ ∀ str_lower name, generate_data str_lower name 1990 "june" = Raise ValueError.
Proof.
  apply (generate_unknown_month_raises 1990 "june").
  simpl. intros H. repeat (destruct H as [H | H]; [discriminate H |]). exact H.
Defined.

(** ** More on the era lookup *)

Ltac era_cases :=
  repeat case_match; try lia; try reflexivity;
  try (simpl in *; discriminate); try (simpl in *; congruence).

(** X3: the month matters to the era label in four years only: outside
    1868, 1912, 1989 and 2019 all twelve months of a year get one label. *)
Theorem era_month_matters_in_four_years y m m' :
  In m months → In m' months →
  y ≠ 1868 → y ≠ 1912 → y ≠ 1989 → y ≠ 2019 →
  get_japanese_era y m = get_japanese_era y m'.
Proof.
  intros Hm Hm' H1 H2 H3 H4.
  destruct (month_num_canonical m Hm) as (k & Hk & Hr).
  destruct (month_num_canonical m' Hm') as (k' & Hk' & Hr').
  unfold get_japanese_era. rewrite Hk, Hk'. simpl.
  assert ((k <=? 12) = true) as -> by lia.
  assert ((k' <=? 12) = true) as -> by lia.
  era_cases.
Qed.

Lemma era_month_matters_in_four_years_witness :
  get_japanese_era 1926 "January" = get_japanese_era 1926 "December".
Proof.
  apply era_month_matters_in_four_years; simpl; (tauto || lia).
Defined.

(** X4: the label is "Pre-Meiji" exactly for the years before 1868 and for
    the months of 1868 before September. *)
Theorem era_Pre_Meiji_iff y m k :
  dict_getitem month_num m = Ok k →
  get_japanese_era y m = Ok "Pre-Meiji"%string ↔ y < 1868 ∨ (y = 1868 ∧ k < 9).
Proof.
  intros Hk. unfold get_japanese_era. rewrite Hk. simpl.
  split.
  - intros H. era_cases.
  - intros H. era_cases.
Qed.

Lemma era_Pre_Meiji_iff_witness :
  get_japanese_era 1868 "August" = Ok "Pre-Meiji"%string
  ↔ 1868 < 1868 ∨ (1868 = 1868 ∧ 8 < 9).
Proof. apply (era_Pre_Meiji_iff 1868 "August" 8). vm_compute. reflexivity. Defined.

(** ** More on the zodiac lookups *)

(** The label as a function of the position in the cycle. *)
Lemma zodiac_label_inj i j :
  0 ≤ i < 12 → 0 ≤ j < 12 →
  (list_getitem zodiac_animals i ≫= λ a : string,
     Ok (a +:+ " Year " +:+ str_int (i + 1)))
  = (list_getitem zodiac_animals j ≫= λ a : string,
     Ok (a +:+ " Year " +:+ str_int (j + 1))) →
  i = j.
Proof.
  intros Hi Hj.
  small_cases i 0 12; small_cases j 0 12; vm_compute;
    intros Heq; first [reflexivity | discriminate Heq].
Qed.

(** X5: two years carry the same Chinese zodiac label exactly when they
    differ by a multiple of 12; the month argument plays no part. *)
Theorem chinese_zodiac_same_label_iff y y' month month' :
  get_chinese_zodiac y month = get_chinese_zodiac y' month'
  ↔ (y - y') `mod` 12 = 0.
Proof.
  unfold get_chinese_zodiac. split.
  - intros H. apply zodiac_label_inj in H;
      [| apply Z.mod_pos_bound; lia | apply Z.mod_pos_bound; lia].
    Z.div_mod_to_equations. lia.
  - intros H.
    replace ((y - 1900) `mod` 12) with ((y' - 1900) `mod` 12);
      [reflexivity |].
    Z.div_mod_to_equations. lia.
Qed.

(** X6: the Chinese zodiac lookup never raises, also for years before 1900:
    it returns one of the twelve animals followed by its position in the
    cycle, a number from 1 to 12. *)
Theorem chinese_zodiac_never_raises y month :
  ∃ animal k,
    get_chinese_zodiac y month = Ok (animal +:+ " Year " +:+ str_int k)
    ∧ zodiac_animals !! Z.to_nat (k - 1) = Some animal
    ∧ 1 ≤ k ≤ 12 ∧ k = (y - 1900) `mod` 12 + 1.
Proof.
  unfold get_chinese_zodiac.
  assert (0 ≤ (y - 1900) `mod` 12 < 12) as Hr by (apply Z.mod_pos_bound; lia).
  generalize dependent ((y - 1900) `mod` 12). intros i Hi.
  exists (nth (Z.to_nat i) zodiac_animals ""%string), (i + 1).
  small_cases i 0 12;
    (split; [vm_compute; reflexivity |]); (split; [reflexivity |]); lia.
Qed.

(** X7: the Western zodiac lookup answers "Unknown" for the strings that
    are not month names and for no others. *)
Theorem western_zodiac_unknown_iff month :
  get_western_zodiac month = "Unknown"%string ↔ ¬ In month months.
Proof.
  split.
  - intros Heq Hm. revert Heq. unfold months in Hm. simpl in Hm.
    repeat (destruct Hm as [<- | Hm]; [vm_compute; discriminate |]).
    destruct Hm.
  - intros Hm. unfold get_western_zodiac, dict_get, western_zodiac.
    rewrite (not_elem_of_list_to_map_1 _ month); [reflexivity |].
    intros Hin. apply Hm, list_elem_of_In. exact Hin.
Qed.

(** ** More on the generated rows *)

Lemma month_of_start m b :
  In m months → list_index months m = Ok b → month_of b 0 = m.
Proof.
  unfold months at 1. simpl. intros Hm Hidx.
  repeat (destruct Hm as [<- | Hm];
          [vm_compute in Hidx; injection Hidx as <-; reflexivity |]).
  destruct Hm.
Qed.

Lemma month_of_lookup b n :
  months !! Z.to_nat ((n + b) `mod` 12) = Some (month_of b n).
Proof.
  unfold month_of.
  assert (0 ≤ (n + b) `mod` 12 < 12) as Hr by (apply Z.mod_pos_bound; lia).
  generalize dependent ((n + b) `mod` 12). intros k Hk.
  small_cases k 0 12; reflexivity.
Qed.

(** X8: every row is consistent with its own year and month: the age is the
    row index divided by 12, and the season, the era and both zodiac labels
    are the lookups of the year and month the row carries; no lookup fails
    on the way. *)
Theorem generate_rows_consistent Y m :
  In m months →
  ∃ rows, generate Y m = Ok rows
    ∧ ∀ (i : nat) r, rows !! i = Some r →
        ∃ y mo season era cz,
          r = [CInt y; CInt (Z.of_nat i `div` 12); CStr season; CStr mo;
               CStr era; CStr cz; CStr (get_western_zodiac mo)]
          ∧ In mo months
          ∧ dict_getitem season_map mo = Ok season
          ∧ get_japanese_era y mo = Ok era
          ∧ get_chinese_zodiac y mo = Ok cz.
Proof.
  intros Hm.
  destruct (generate_closed_form Y m Hm) as (b & Hb & _ & _ & Hgen).
  eexists. split; [exact Hgen |].
  intros i r Hr. apply row_at_lookup in Hr as [-> Hi].
  pose proof (month_of_canonical b (Z.of_nat i)) as Hmo.
  destruct (season_defined _ Hmo) as [s Hs].
  destruct (era_defined (Y + (Z.of_nat i + b) `div` 12) _ Hmo) as [e He].
  destruct (chinese_zodiac_defined (Y + (Z.of_nat i + b) `div` 12)
              (month_of b (Z.of_nat i))) as [z Hz].
  exists (Y + (Z.of_nat i + b) `div` 12), (month_of b (Z.of_nat i)), s, e, z.
  split; [| auto]. unfold row_at. cbv zeta. rewrite Hs, He, Hz. reflexivity.
Qed.

Lemma generate_rows_consistent_witness :
  ∃ rows, generate 1868 "September" = Ok rows
    ∧ ∀ (i : nat) r, rows !! i = Some r →
        ∃ y mo season era cz,
          r = [CInt y; CInt (Z.of_nat i `div` 12); CStr season; CStr mo;
               CStr era; CStr cz; CStr (get_western_zodiac mo)]
          ∧ In mo months
          ∧ dict_getitem season_map mo = Ok season
          ∧ get_japanese_era y mo = Ok era
          ∧ get_chinese_zodiac y mo = Ok cz.
Proof. apply (generate_rows_consistent 1868 "September"). simpl. tauto. Defined.

(** X9: the age column is the row index divided by 12: it starts at 0,
    never decreases, grows by one every twelfth row and ends at 100. *)
Theorem generate_age_column Y m :
  In m months →
  ∃ rows, generate Y m = Ok rows
    ∧ (∀ (i : nat) r, rows !! i = Some r →
         row_age r = Some (Z.of_nat i `div` 12) ∧ 0 ≤ Z.of_nat i `div` 12 ≤ 100)
    ∧ (∀ (i : nat) r r', rows !! i = Some r → rows !! (i + 12)%nat = Some r' →
         ∃ a, row_age r = Some a ∧ row_age r' = Some (a + 1))
    ∧ (∃ r, last rows = Some r ∧ row_age r = Some 100).
Proof.
  intros Hm.
  destruct (generate_closed_form Y m Hm) as (b & Hb & _ & _ & Hgen).
  eexists. split; [exact Hgen |]. split; [| split].
  - intros i r Hr. apply row_at_lookup in Hr as [-> Hi].
    split; [reflexivity |]. Z.div_mod_to_equations. lia.
  - intros i r r' Hr Hr'.
    apply row_at_lookup in Hr as [-> Hi].
    apply row_at_lookup in Hr' as [-> Hi'].
    exists (Z.of_nat i `div` 12). split; [reflexivity |].
    unfold row_age, row_at. simpl. f_equal.
    replace (Z.of_nat (i + 12)) with (Z.of_nat i + 1 * 12) by lia.
    rewrite Z.div_add by lia. reflexivity.
  - exists (row_at Y b 1211). split; [| reflexivity].
    rewrite last_lookup, length_fmap, length_seqZ, list_lookup_fmap.
    change (Init.Nat.pred (Z.to_nat 1212)) with 1211%nat.
    replace (seqZ 0 1212 !! 1211%nat) with (Some 1211); [reflexivity |].
    symmetry. apply lookup_seqZ. lia.
Qed.

Lemma generate_age_column_witness :
  ∃ rows, generate 2000 "March" = Ok rows
    ∧ (∀ (i : nat) r, rows !! i = Some r →
         row_age r = Some (Z.of_nat i `div` 12) ∧ 0 ≤ Z.of_nat i `div` 12 ≤ 100)
    ∧ (∀ (i : nat) r r', rows !! i = Some r → rows !! (i + 12)%nat = Some r' →
         ∃ a, row_age r = Some a ∧ row_age r' = Some (a + 1))
    ∧ (∃ r, last rows = Some r ∧ row_age r = Some 100).
Proof. apply (generate_age_column 2000 "March"). simpl. tauto. Defined.

(** X10: the month column starts at the start month and then follows the
    calendar: each row's month is the one after the previous row's, January
    coming after December. *)
Theorem generate_month_column Y m :
  In m months →
  ∃ rows, generate Y m = Ok rows
    ∧ (∃ r0, rows !! 0%nat = Some r0 ∧ row_month r0 = Some m)
    ∧ ∀ (i : nat) r r', rows !! i = Some r → rows !! S i = Some r' →
        ∃ k, 0 ≤ k < 12
             ∧ row_month r = months !! Z.to_nat k
             ∧ row_month r' = months !! Z.to_nat ((k + 1) `mod` 12).
Proof.
  intros Hm.
  destruct (generate_closed_form Y m Hm) as (b & Hb & Hidx & _ & Hgen).
  eexists. split; [exact Hgen |]. split.
  - exists (row_at Y b 0). split; [reflexivity |].
    unfold row_month, row_at. simpl. f_equal.
    apply month_of_start; assumption.
  - intros i r r' Hr Hr'.
    apply row_at_lookup in Hr as [-> Hi].
    apply row_at_lookup in Hr' as [-> Hi'].
    exists ((Z.of_nat i + b) `mod` 12).
    split; [apply Z.mod_pos_bound; lia |]. split.
    + rewrite month_of_lookup. reflexivity.
    + replace (((Z.of_nat i + b) `mod` 12 + 1) `mod` 12)
        with ((Z.of_nat (S i) + b) `mod` 12).
      * rewrite month_of_lookup. reflexivity.
      * rewrite Zplus_mod_idemp_l. f_equal. lia.
Qed.

Lemma generate_month_column_witness :
  ∃ rows, generate 2000 "March" = Ok rows
    ∧ (∃ r0, rows !! 0%nat = Some r0 ∧ row_month r0 = Some "March"%string)
    ∧ ∀ (i : nat) r r', rows !! i = Some r → rows !! S i = Some r' →
        ∃ k, 0 ≤ k < 12
             ∧ row_month r = months !! Z.to_nat k
             ∧ row_month r' = months !! Z.to_nat ((k + 1) `mod` 12).
Proof. apply (generate_month_column 2000 "March"). simpl. tauto. Defined.

(** X11: the rows of one calendar year form one block: with [b] the
    position of the start month in the year, row [i] carries the year
    [Y + j] exactly when [12 j <= i + b < 12 (j + 1)]. The first year so has
    [12 - b] rows and every later year but the last has 12. *)
Theorem generate_year_blocks Y m :
  In m months →
  ∃ b rows, list_index months m = Ok b ∧ 0 ≤ b < 12
    ∧ generate Y m = Ok rows
    ∧ ∀ (i : nat) r j, rows !! i = Some r →
        row_year r = Some (Y + j)
        ↔ 12 * j ≤ Z.of_nat i + b < 12 * (j + 1).
Proof.
  intros Hm.
  destruct (generate_closed_form Y m Hm) as (b & Hb & Hidx & _ & Hgen).
  exists b. eexists. split; [exact Hidx |]. split; [exact Hb |].
  split; [exact Hgen |].
  intros i r j Hr. apply row_at_lookup in Hr as [-> Hi].
  unfold row_year, row_at. simpl. split.
  - intros [= H]. Z.div_mod_to_equations. lia.
  - intros H. f_equal. Z.div_mod_to_equations. lia.
Qed.

Lemma generate_year_blocks_witness :
  ∃ b rows, list_index months "March" = Ok b ∧ 0 ≤ b < 12
    ∧ generate 2000 "March" = Ok rows
    ∧ ∀ (i : nat) r j, rows !! i = Some r →
        row_year r = Some (2000 + j)
        ↔ 12 * j ≤ Z.of_nat i + b < 12 * (j + 1).
Proof. apply (generate_year_blocks 2000 "March"). simpl. tauto. Defined.

(** ** The prompts and messages of [generate_years_v9.py] *)

(** X12: a month number from 1 to 12 is accepted and selects the month whose
    position in [months] is one less and whose number in the era lookup's
    table is the number typed; any other number is refused. *)
Theorem birth_month_of_num_agrees k :
  (1 ≤ k ≤ 12 →
   ∃ mo, birth_month_of_num k = Accepted mo
         ∧ list_index months mo = Ok (k - 1)
         ∧ dict_getitem month_num mo = Ok k)
  ∧ (k < 1 ∨ 12 < k →
     birth_month_of_num k = Refused "Error: Month must be between 1 and 12").
Proof.
  split.
  - intros Hk. small_cases k 1 13; eexists;
      (split; [reflexivity |]); split; vm_compute; reflexivity.
  - intros Hk. unfold birth_month_of_num.
    assert ((k <? 1) || (12 <? k) = true) as ->; [| reflexivity].
    apply orb_true_iff. lia.
Qed.

Lemma birth_month_of_num_agrees_witness :
  ∃ mo, birth_month_of_num 6 = Accepted mo
        ∧ list_index months mo = Ok (6 - 1)
        ∧ dict_getitem month_num mo = Ok 6.
Proof. apply (proj1 (birth_month_of_num_agrees 6)). lia. Defined.

(** X13: the month printed by "Ending at" is the month of the last row; the
    year it prints, [birth_year + 100], is the year of the last row when the
    birth month is January, and one less than it for every other month. *)
Theorem ending_at_versus_last_row Y m :
  In m months →
  ∃ rows r mo,
    generate Y m = Ok rows ∧ last rows = Some r
    ∧ ending_at Y m = Ok (mo, Y + 100)
    ∧ row_month r = Some mo
    ∧ (m = "January"%string → row_year r = Some (Y + 100))
    ∧ (m ≠ "January"%string → row_year r = Some (Y + 100 + 1)).
Proof.
  intros Hm.
  destruct (generate_closed_form Y m Hm) as (b & Hb & Hidx & _ & Hgen).
  exists (row_at Y b <$> seqZ 0 1212), (row_at Y b 1211), (month_of b 1211).
  split; [exact Hgen |]. split.
  { rewrite last_lookup, length_fmap, length_seqZ, list_lookup_fmap.
    change (Init.Nat.pred (Z.to_nat 1212)) with 1211%nat.
    replace (seqZ 0 1212 !! 1211%nat) with (Some 1211); [reflexivity |].
    symmetry. apply lookup_seqZ. lia. }
  split.
  { unfold ending_at. rewrite Hidx. cbn [mbind result_bind].
    clear Hidx Hgen. small_cases b 0 12; vm_compute; reflexivity. }
  split; [reflexivity |].
  unfold row_year, row_at. simpl.
  unfold months in Hm. simpl in Hm. split.
  - intros ->. vm_compute in Hidx. injection Hidx as <-. reflexivity.
  - intros Hne. assert (b ≠ 0) as Hb0.
    { intros ->.
      repeat (destruct Hm as [<- | Hm];
              [first [congruence | vm_compute in Hidx; discriminate Hidx] |]).
      destruct Hm. }
    replace ((1211 + b) `div` 12) with 101
      by (Z.div_mod_to_equations; lia).
    f_equal. lia.
Qed.

Lemma ending_at_versus_last_row_witness :
  ∃ rows r mo,
    generate 1990 "June" = Ok rows ∧ last rows = Some r
    ∧ ending_at 1990 "June" = Ok (mo, 1990 + 100)
    ∧ row_month r = Some mo
    ∧ ("June"%string = "January"%string → row_year r = Some (1990 + 100))
    ∧ ("June"%string ≠ "January"%string → row_year r = Some (1990 + 100 + 1)).
Proof. apply (ending_at_versus_last_row 1990 "June"). simpl. tauto. Defined.

(** ** The preview of [generate_years_v14_streamlit.py] *)

Lemma year_le_row_at Y b n cy :
  year_le (row_at Y b n) cy = Some (Y + (n + b) `div` 12 <=? cy).
Proof. reflexivity. Qed.

Lemma present_day_rows_closed Y b cy (k : nat) :
  ∀ n0,
  present_day_rows (row_at Y b <$> seqZ n0 (Z.of_nat k)) cy
  = Some (row_at Y b <$>
            seqZ n0 (Z.max 0 (Z.min (Z.of_nat k)
                                    (12 * (cy - Y + 1) - b - n0)))).
Proof.
  induction k as [| k IH]; intros n0.
  - replace (Z.max 0 (Z.min (Z.of_nat 0) (12 * (cy - Y + 1) - b - n0)))
      with 0 by lia.
    reflexivity.
  - rewrite Nat2Z.inj_succ, (seqZ_cons n0) by lia. rewrite Z.pred_succ.
    cbn [fmap list_fmap present_day_rows].
    change (list_fmap Z (list cell) (row_at Y b)) with (fmap (row_at Y b)).
    rewrite IH, year_le_row_at. cbn [mbind option_bind].
    destruct (Z.leb_spec (Y + (n0 + b) `div` 12) cy) as [Hle | Hgt].
    + assert (n0 < 12 * (cy - Y + 1) - b) as Hlt
        by (Z.div_mod_to_equations; lia).
      rewrite (seqZ_cons n0 (Z.max _ _)) by lia.
      cbn [fmap list_fmap]. do 4 f_equal. lia.
    + assert (12 * (cy - Y + 1) - b ≤ n0) as Hge
        by (Z.div_mod_to_equations; lia).
      rewrite !seqZ_nil by lia. reflexivity.
Qed.

Lemma last_preview_last p : last (preview_last p) = last p.
Proof.
  unfold preview_last. destruct (Z.ltb_spec 3 (Z.of_nat (length p))); [| reflexivity].
  rewrite !last_lookup, length_drop, lookup_drop. f_equal. lia.
Qed.

Lemma last_row_at Y b T :
  1 ≤ T → last (row_at Y b <$> seqZ 0 T) = Some (row_at Y b (T - 1)).
Proof.
  intros HT. rewrite last_lookup, length_fmap, length_seqZ, list_lookup_fmap.
  replace (seqZ 0 T !! Init.Nat.pred (Z.to_nat T)) with (Some (T - 1));
    [reflexivity |].
  symmetry. apply lookup_seqZ. lia.
Qed.

(** X14: the rows the preview keeps as "present day" are an initial stretch
    of the data rows. For a current year from the birth year to a hundred
    years later the last of them, and so the last row shown, is the December
    row of the current year, whatever the current month; a current year
    before the birth year leaves nothing to show. *)
Theorem preview_present_day Y m cy :
  In m months →
  ∃ rows present,
    generate Y m = Ok rows
    ∧ present_day_rows rows cy = Some present
    ∧ present `prefix_of` rows
    ∧ (cy < Y → present = [])
    ∧ (Y + 101 ≤ cy → present = rows)
    ∧ (Y ≤ cy ≤ Y + 100 →
       ∃ r, last (preview_last present) = Some r
            ∧ row_year r = Some cy
            ∧ row_month r = Some "December"%string).
Proof.
  intros Hm.
  destruct (generate_closed_form Y m Hm) as (b & Hb & _ & _ & Hgen).
  pose proof (present_day_rows_closed Y b cy 1212 0) as Hp.
  change (Z.of_nat 1212) with 1212 in Hp.
  set (T := Z.max 0 (Z.min 1212 (12 * (cy - Y + 1) - b - 0))) in *.
  exists (row_at Y b <$> seqZ 0 1212), (row_at Y b <$> seqZ 0 T).
  split; [exact Hgen |]. split; [exact Hp |]. split; [| split; [| split]].
  - exists (row_at Y b <$> seqZ T (1212 - T)).
    rewrite <- fmap_app. f_equal.
    replace 1212 with (T + (1212 - T)) at 1 by lia.
    rewrite seqZ_app by lia. reflexivity.
  - intros Hcy. rewrite seqZ_nil by lia. reflexivity.
  - intros Hcy. replace T with 1212 by lia. reflexivity.
  - intros Hcy. exists (row_at Y b (T - 1)).
    assert (T = 12 * (cy - Y + 1) - b) as HT by lia.
    split; [rewrite last_preview_last; apply last_row_at; lia |]. split.
    + unfold row_year, row_at. cbn [lookup list_lookup]. f_equal.
      Z.div_mod_to_equations. lia.
    + unfold row_month, row_at. cbn [lookup list_lookup]. f_equal.
      apply String.eqb_eq. rewrite month_of_December.
      apply Z.eqb_eq. Z.div_mod_to_equations. lia.
Qed.

Lemma preview_present_day_witness :
  ∃ rows present,
    generate 1990 "June" = Ok rows
    ∧ present_day_rows rows 2026 = Some present
    ∧ present `prefix_of` rows
    ∧ (2026 < 1990 → present = [])
    ∧ (1990 + 101 ≤ 2026 → present = rows)
    ∧ (1990 ≤ 2026 ≤ 1990 + 100 →
       ∃ r, last (preview_last present) = Some r
            ∧ row_year r = Some 2026
            ∧ row_month r = Some "December"%string).
Proof. apply (preview_present_day 1990 "June" 2026). simpl. tauto. Defined.

(** ** Row shading of the workbook *)

Lemma get_month_fill_season_map month :
  get_month_fill month = season_map !! month ≫= fill_of_season.
Proof.
  destruct (season_map !! month) as [s |] eqn:E.
  - apply elem_of_list_to_map_2, list_elem_of_In in E. simpl in E.
    repeat (destruct E as [[= <- <-] | E]; [reflexivity |]). destruct E.
  - apply not_elem_of_list_to_map_2 in E.
    unfold get_month_fill, list_contains. simpl.
    repeat match goal with
    | |- context [String.eqb month ?s] =>
        destruct (String.eqb_spec month s) as [-> | _];
        [exfalso; apply E; apply list_elem_of_In; simpl; tauto |]
    end.
    reflexivity.
Qed.

(** X15: the shading agrees with the season table: a month is filled green
    exactly when [season_map] calls it spring, red exactly when it calls it
    autumn, and a string that is no month name gets no fill (and no error). *)
Theorem month_fill_follows_season month :
  (get_month_fill month = Some green_fill
   ↔ season_map !! month = Some "spring"%string)
  ∧ (get_month_fill month = Some red_fill
     ↔ season_map !! month = Some "autumn"%string)
  ∧ (get_month_fill month = None
     ↔ season_map !! month ≠ Some "spring"%string
       ∧ season_map !! month ≠ Some "autumn"%string)
  ∧ (¬ In month months → get_month_fill month = None).
Proof.
  rewrite get_month_fill_season_map.
  destruct (season_map !! month) as [s |] eqn:E.
  - apply elem_of_list_to_map_2, list_elem_of_In in E. simpl in E.
    assert (In month months) as Hin.
    { repeat (destruct E as [[= <- <-] | E]; [simpl; tauto |]). destruct E. }
    repeat (destruct E as [[= <- <-] | E];
            [vm_compute; repeat split; intros; try tauto; try congruence;
               try discriminate |]).
    destruct E.
  - simpl. repeat split; intros; try discriminate; try congruence.
Qed.

Lemma fill_row_lookup fills row_idx f r c :
  fill_row fills row_idx f !! (r, c)
  = if decide (r = row_idx ∧ 1 ≤ c ≤ 7) then Some f else fills !! (r, c).
Proof.
  unfold fill_row. change (seqZ 1 7) with [1; 2; 3; 4; 5; 6; 7].
  cbn [foldl]. rewrite !lookup_insert.
  destruct (decide (r = row_idx ∧ 1 ≤ c ≤ 7)) as [[-> Hc] | Hn].
  - small_cases c 1 8; repeat case_decide; congruence.
  - repeat case_decide; simplify_eq; try reflexivity; exfalso; lia.
Qed.

Lemma excel_data_rows_spec rows :
  Forall (λ row, ∃ mo, row !! 3%nat = Some (CStr mo)) rows →
  ∀ ws row_idx,
  ∃ ws', excel_data_rows ws row_idx rows = Ok ws'
    ∧ ws_rows ws' = ws_rows ws ++ rows
    ∧ ∀ r c, ws_fill ws' !! (r, c)
             = match new_fill rows row_idx r c with
               | Some f => Some f
               | None => ws_fill ws !! (r, c)
               end.
Proof.
  induction 1 as [| row rows [mo Hmo] _ IH]; intros ws row_idx.
  - exists ws. split; [reflexivity |]. split; [rewrite app_nil_r; reflexivity |].
    intros r c. unfold new_fill. case_decide; reflexivity.
  - assert (list_getitem row 3 = Ok (CStr mo)) as Hget.
    { unfold list_getitem. pose proof (lookup_lt_Some _ _ _ Hmo) as Hlen.
      simpl. assert ((3 <? Z.of_nat (length row)) = true) as ->
        by (apply Z.ltb_lt; lia).
      change (Z.to_nat 3) with 3%nat. rewrite Hmo. reflexivity. }
    assert (row_month row = Some mo) as Hrm by (unfold row_month; rewrite Hmo; reflexivity).
    cbn [excel_data_rows]. unfold excel_data_row. rewrite Hget.
    cbn [mbind result_bind].
    set (fills1 := match get_month_fill mo with
                   | Some f => fill_row (ws_fill ws) row_idx f
                   | None => ws_fill ws
                   end).
    assert (∀ r c, fills1 !! (r, c)
                   = if decide (r = row_idx ∧ 1 ≤ c ≤ 7)
                     then match get_month_fill mo with
                          | Some f => Some f
                          | None => ws_fill ws !! (r, c)
                          end
                     else ws_fill ws !! (r, c)) as Hfills1.
    { intros r c. unfold fills1. destruct (get_month_fill mo).
      - apply fill_row_lookup.
      - case_decide; reflexivity. }
    destruct (IH (Worksheet (ws_rows ws ++ [row]) fills1) (row_idx + 1))
      as (ws' & Hrun & Hrows & Hfill).
    exists ws'. split.
    { destruct (get_month_fill mo); exact Hrun. }
    split.
    { rewrite Hrows. simpl. rewrite <- app_assoc. reflexivity. }
    intros r c. rewrite Hfill. cbn [ws_fill]. rewrite Hfills1.
    unfold new_fill.
    destruct (decide (r = row_idx ∧ 1 ≤ c ≤ 7)) as [[-> Hc] | Hn].
    + rewrite decide_False by lia. rewrite decide_True by lia.
      rewrite Z.sub_diag. change ((row :: rows) !! Z.to_nat 0) with (Some row).
      cbn [mbind option_bind]. rewrite Hrm. cbn [mbind option_bind].
      destruct (get_month_fill mo); reflexivity.
    + destruct (decide (row_idx + 1 ≤ r ∧ 1 ≤ c ≤ 7)) as [Hy | Hy'].
      * rewrite decide_True by lia.
        replace (Z.to_nat (r - row_idx)) with (S (Z.to_nat (r - (row_idx + 1))))
          by lia.
        reflexivity.
      * destruct (decide (row_idx ≤ r ∧ 1 ≤ c ≤ 7)) as [Hz | Hz'];
          [exfalso; lia | reflexivity].
Qed.

Lemma list_getitem_head {A} (x : A) l : list_getitem (x :: l) 0 = Ok x.
Proof.
  unfold list_getitem. cbn [length]. rewrite Nat2Z.inj_succ.
  change (0 <? 0) with false. cbv iota.
  assert ((0 <? Z.succ (Z.of_nat (length l))) = true) as ->
    by (apply Z.ltb_lt; lia).
  reflexivity.
Qed.

Lemma season_lookup_unwrap mo :
  In mo months →
  season_map !! mo = Some (unwrap (dict_getitem season_map mo)).
Proof.
  intros Hmo. destruct (season_defined mo Hmo) as [s Hs]. rewrite Hs.
  unfold dict_getitem in Hs. destruct (season_map !! mo); [| discriminate].
  injection Hs as ->. reflexivity.
Qed.

(** X16: in the worksheet built from the generated rows, the rows are the
    header and the data rows in order; data row [i] sits in sheet row
    [i + 2] and its seven cells are green when its season column says
    spring, red when it says autumn and unfilled otherwise; no other cell
    of the sheet is filled. *)
Theorem excel_shading_follows_season Y m :
  In m months →
  ∃ all ws,
    generate_all_rows Y m = Ok all
    ∧ generate_excel_sheet all = Ok ws
    ∧ ws_rows ws = all
    ∧ (∀ (i : nat) row c, all !! S i = Some row → 1 ≤ c ≤ 7 →
         ∃ season, row !! 2%nat = Some (CStr season)
                   ∧ ws_fill ws !! (Z.of_nat i + 2, c) = fill_of_season season)
    ∧ (∀ r c, ¬ (2 ≤ r ≤ 1213 ∧ 1 ≤ c ≤ 7) → ws_fill ws !! (r, c) = None).
Proof.
  intros Hm.
  destruct (generate_closed_form Y m Hm) as (b & Hb & _ & Hall & _).
  set (rows := row_at Y b <$> seqZ 0 1212) in *.
  assert (Forall (λ row, ∃ mo, row !! 3%nat = Some (CStr mo)) rows) as Hrows.
  { apply Forall_fmap, Forall_forall. intros n _. eexists. reflexivity. }
  destruct (excel_data_rows_spec rows Hrows (Worksheet [header] ∅) 2)
    as (ws & Hrun & Hwsrows & Hfill).
  exists (header :: rows), ws. split; [exact Hall |]. split; [| split; [| split]].
  - unfold generate_excel_sheet. rewrite list_getitem_head. exact Hrun.
  - exact Hwsrows.
  - intros i row c Hrow0 Hc.
    assert (rows !! i = Some row) as Hrow by exact Hrow0. clear Hrow0.
    pose proof Hrow as Hrow'. apply row_at_lookup in Hrow' as [-> Hi].
    exists (unwrap (dict_getitem season_map (month_of b (Z.of_nat i)))).
    split; [reflexivity |].
    rewrite Hfill. cbn [ws_fill]. rewrite lookup_empty.
    unfold new_fill. rewrite decide_True by lia.
    replace (Z.to_nat (Z.of_nat i + 2 - 2)) with i by lia.
    rewrite Hrow. cbn [mbind option_bind].
    change (row_month (row_at Y b (Z.of_nat i)))
      with (Some (month_of b (Z.of_nat i))).
    cbn [mbind option_bind]. rewrite get_month_fill_season_map.
    rewrite season_lookup_unwrap by apply month_of_canonical.
    cbn [mbind option_bind]. destruct (fill_of_season _); reflexivity.
  - intros r c Hout. rewrite Hfill. cbn [ws_fill]. rewrite lookup_empty.
    unfold new_fill. case_decide as Hin; [| reflexivity].
    rewrite (lookup_ge_None_2 rows); [reflexivity |].
    unfold rows. rewrite length_fmap, length_seqZ. lia.
Qed.

Lemma excel_shading_follows_season_witness :
  ∃ all ws,
    generate_all_rows 1990 "June" = Ok all
    ∧ generate_excel_sheet all = Ok ws
    ∧ ws_rows ws = all
    ∧ (∀ (i : nat) row c, all !! S i = Some row → 1 ≤ c ≤ 7 →
         ∃ season, row !! 2%nat = Some (CStr season)
                   ∧ ws_fill ws !! (Z.of_nat i + 2, c) = fill_of_season season)
    ∧ (∀ r c, ¬ (2 ≤ r ≤ 1213 ∧ 1 ≤ c ≤ 7) → ws_fill ws !! (r, c) = None).
Proof. apply (excel_shading_follows_season 1990 "June"). simpl. tauto. Defined.

(** ** More on the file-name sanitizer *)

Lemma sanitize_char_file_char c :
  is_file_char (ascii_lower (if in_name_class c then c else 95)).
Proof.
  unfold is_file_char, ascii_lower.
  destruct (in_name_class c) eqn:Hc.
  - unfold in_name_class in Hc. case_match; lia.
  - simpl. lia.
Qed.

Lemma sanitize_char_fixed c :
  is_file_char c → ascii_lower (if in_name_class c then c else 95) = c.
Proof.
  unfold is_file_char, ascii_lower, in_name_class. intros Hc.
  repeat case_match; lia.
Qed.

Lemma sanitize_spec_file_chars s : Forall is_file_char (sanitize_spec s).
Proof.
  unfold sanitize_spec. rewrite <- list_fmap_compose.
  apply Forall_fmap, Forall_forall. intros c _. apply sanitize_char_file_char.
Qed.

Lemma sanitize_spec_fixed s :
  Forall is_file_char s → sanitize_spec s = s.
Proof.
  unfold sanitize_spec. rewrite <- list_fmap_compose.
  induction 1 as [| c s Hc _ IH]; [reflexivity |].
  cbn [fmap list_fmap compose] in *. rewrite IH.
  f_equal. apply sanitize_char_fixed, Hc.
Qed.

Section SanitizerMore.

Variable str_lower : list Z → list Z.

Hypothesis str_lower_ascii :
  ∀ s, Forall (λ c, 0 ≤ c < 128) s → str_lower s = ascii_lower <$> s.

Lemma sanitized_is_spec name :
  sanitized_name str_lower name = sanitize_spec name.
Proof.
  unfold sanitized_name, sanitize_spec. rewrite re_sub_name_class.
  apply str_lower_ascii, substituted_is_ascii.
Qed.

(** X17: the sanitized name has as many characters as the name typed, and
    each of them is a lower-case letter, a digit, an underscore or a
    hyphen; a name made of such characters only is left as it is. *)
Theorem sanitized_name_shape name :
  length (sanitized_name str_lower name) = length name
  ∧ Forall is_file_char (sanitized_name str_lower name)
  ∧ (Forall is_file_char name → sanitized_name str_lower name = name).
Proof.
  rewrite sanitized_is_spec. split; [| split].
  - unfold sanitize_spec. rewrite !length_fmap. reflexivity.
  - apply sanitize_spec_file_chars.
  - apply sanitize_spec_fixed.
Qed.

(** X18: sanitizing is idempotent: a sanitized name sanitizes to itself. *)
Theorem sanitized_name_idempotent name :
  sanitized_name str_lower (sanitized_name str_lower name)
  = sanitized_name str_lower name.
Proof.
  rewrite !sanitized_is_spec.
  apply sanitize_spec_fixed, sanitize_spec_file_chars.
Qed.

(** X19: the names of the two files offered hold no character other than
    lower-case letters, digits, underscore, hyphen and the dot, so no path
    separator, whatever name was typed. *)
Theorem chronology_filenames_safe name :
  Forall (λ c, is_file_char c ∨ c = ord ".")
    (csv_filename (sanitized_name str_lower name))
  ∧ Forall (λ c, is_file_char c ∨ c = ord ".")
      (xlsx_filename (sanitized_name str_lower name)).
Proof.
  rewrite sanitized_is_spec. unfold csv_filename, xlsx_filename.
  split; apply Forall_app; (split;
    [eapply Forall_impl;
       [apply sanitize_spec_file_chars | intros c Hc; left; exact Hc]
    | apply Forall_forall; intros c Hc; apply list_elem_of_In in Hc;
      unfold is_file_char; change (ord ".") with 46;
      unfold codepoints in Hc; cbn [String.list_ascii_of_string fmap list_fmap] in Hc;
      unfold ord in Hc; cbn in Hc; lia ]).
Qed.

End SanitizerMore.

Lemma ascii_lower_is_lower :
  ∀ s, Forall (λ c, 0 ≤ c < 128) s → fmap ascii_lower s = ascii_lower <$> s.
Proof. intros s _. reflexivity. Qed.

Lemma sanitized_name_shape_witness :
  length (sanitized_name (fmap ascii_lower) (codepoints "Zo" ++ [235; 33]))
  = length (codepoints "Zo" ++ [235; 33])
  ∧ Forall is_file_char
      (sanitized_name (fmap ascii_lower) (codepoints "Zo" ++ [235; 33]))
  ∧ (Forall is_file_char (codepoints "Zo" ++ [235; 33]) →
     sanitized_name (fmap ascii_lower) (codepoints "Zo" ++ [235; 33])
     = codepoints "Zo" ++ [235; 33]).
Proof.
  apply (sanitized_name_shape (fmap ascii_lower) ascii_lower_is_lower).
Defined.

Lemma sanitized_name_idempotent_witness :
  sanitized_name (fmap ascii_lower)
    (sanitized_name (fmap ascii_lower) (codepoints "Mr. O'Neil"))
  = sanitized_name (fmap ascii_lower) (codepoints "Mr. O'Neil").
Proof.
  apply (sanitized_name_idempotent (fmap ascii_lower) ascii_lower_is_lower).
Defined.

Lemma chronology_filenames_safe_witness :
  Forall (λ c, is_file_char c ∨ c = ord ".")
    (csv_filename (sanitized_name (fmap ascii_lower) (codepoints "../etc")))
  ∧ Forall (λ c, is_file_char c ∨ c = ord ".")
      (xlsx_filename (sanitized_name (fmap ascii_lower) (codepoints "../etc"))).
Proof.
  apply (chronology_filenames_safe (fmap ascii_lower) ascii_lower_is_lower).
Defined.

(** ** Cover pages of the mergers *)

(** X20: on the cover page of the PDF mergers a title never takes more than
    70 characters: a title of up to 70 characters is printed as it is, a
    longer one is cut to its first 67 characters followed by three dots. *)
Theorem cover_doc_title_fits title idx :
  (length (cover_doc_title title idx) ≤ 70)%nat
  ∧ (title ≠ [] → (length title ≤ 70)%nat → cover_doc_title title idx = title)
  ∧ ((70 < length title)%nat →
     cover_doc_title title idx = take 67 title ++ codepoints "..."
     ∧ length (cover_doc_title title idx) = 70%nat).
Proof.
  unfold cover_doc_title, slice_to. change (Z.to_nat 67) with 67%nat.
  split; [| split].
  - destruct (Z.ltb_spec 70 (Z.of_nat (length
        match title with
        | [] => codepoints ("Document " +:+ str_int idx)
        | _ :: _ => title
        end))) as [Hlong | Hshort].
    + rewrite length_app, length_take. change (length (codepoints "...")) with 3%nat.
      lia.
    + lia.
  - intros Hne Hlen. destruct title as [| c title]; [congruence |].
    destruct (Z.ltb_spec 70 (Z.of_nat (length (c :: title)))); [lia | reflexivity].
  - intros Hlen. destruct title as [| c title]; [simpl in Hlen; lia |].
    destruct (Z.ltb_spec 70 (Z.of_nat (length (c :: title)))); [| lia].
    split; [reflexivity |].
    rewrite length_app, length_take. change (length (codepoints "...")) with 3%nat.
    lia.
Qed.

(** X21: on the cover page of the image merger the name shown is the title,
    or the file name when the title is missing or empty; up to 70
    characters it is printed as it is, and a longer one is cut to its first
    70 characters with three dots added, 73 characters in all. *)
Theorem image_cover_title_length title filename :
  (length (image_cover_title title filename) ≤ 73)%nat
  ∧ ((length (str_or title filename) ≤ 70)%nat →
     image_cover_title title filename = str_or title filename)
  ∧ ((70 < length (str_or title filename))%nat →
     image_cover_title title filename
     = take 70 (str_or title filename) ++ codepoints "..."
     ∧ length (image_cover_title title filename) = 73%nat).
Proof.
  unfold image_cover_title, slice_to. change (Z.to_nat 70) with 70%nat.
  generalize (str_or title filename). intros shown.
  destruct (Z.ltb_spec 70 (Z.of_nat (length shown))) as [Hlong | Hshort].
  - split; [| split].
    + rewrite length_app, length_take.
      change (length (codepoints "...")) with 3%nat. lia.
    + intros Hlen. lia.
    + intros _. split; [reflexivity |].
      rewrite length_app, length_take.
      change (length (codepoints "...")) with 3%nat. lia.
  - split; [| split].
    + rewrite length_take. lia.
    + intros _. apply take_ge. lia.
    + intros Hlen. lia.
Qed.

(** ** The list of processed files of the mergers *)

Lemma list_contains_In l x : list_contains l x = true ↔ In x l.
Proof.
  unfold list_contains. rewrite existsb_exists. split.
  - intros (y & Hy & Heq). apply String.eqb_eq in Heq. subst. exact Hy.
  - intros Hx. exists x. split; [exact Hx | apply String.eqb_refl].
Qed.

Lemma omap_all_None {A B} (g : A → option B) l :
  (∀ x, In x l → g x = None) → omap g l = [].
Proof.
  induction l as [| x l IH]; intros H; [reflexivity |].
  cbn [omap list_omap]. rewrite (H x) by (left; reflexivity).
  apply IH. intros y Hy. apply H. right. exact Hy.
Qed.

Section SessionProperties.

Context {upload info : Type}.
Variable name_of : upload → string.
Variable filename_of : info → string.
Variable extract : upload → string → option info.

(** Both extraction functions put the file name they are given into the
    dict they return (['filename': filename]). *)
Hypothesis extract_filename :
  ∀ f n i, extract f n = Some i → filename_of i = n.

Lemma process_uploads_eq st ups :
  process_uploads name_of filename_of extract st ups
  = st ++ omap (λ f, extract f (name_of f))
            (List.filter
               (λ f, negb (list_contains (filename_of <$> st) (name_of f)))
               ups).
Proof.
  unfold process_uploads.
  generalize (List.filter
    (λ f, negb (list_contains (filename_of <$> st) (name_of f))) ups).
  intros l. revert st. induction l as [| f l IH]; intros st.
  - cbn. rewrite app_nil_r. reflexivity.
  - cbn [foldl omap list_omap]. rewrite IH.
    destruct (extract f (name_of f)); [| reflexivity].
    rewrite <- app_assoc. reflexivity.
Qed.

Lemma process_uploads_added st ups f i :
  In f ups → ¬ In (name_of f) (filename_of <$> st) →
  extract f (name_of f) = Some i →
  In i (process_uploads name_of filename_of extract st ups).
Proof.
  intros Hf Hnew Hext. rewrite process_uploads_eq.
  apply in_or_app. right. apply list_elem_of_In, list_elem_of_omap.
  exists f. split; [| exact Hext].
  apply list_elem_of_In, filter_In. split; [exact Hf |].
  apply negb_true_iff, not_true_iff_false. rewrite list_contains_In. exact Hnew.
Qed.

(** X22: the upload block only appends: the files processed before stay
    where they are, and afterwards the name of every uploaded file that
    can be read is among the processed file names. *)
Theorem process_uploads_complete st ups :
  st `prefix_of` process_uploads name_of filename_of extract st ups
  ∧ ∀ f i, In f ups → extract f (name_of f) = Some i →
      In (name_of f)
        (filename_of <$> process_uploads name_of filename_of extract st ups).
Proof.
  split.
  - rewrite process_uploads_eq. eexists. reflexivity.
  - intros f i Hf Hext.
    destruct (in_dec String.string_dec (name_of f) (filename_of <$> st))
      as [Hold | Hnew].
    + rewrite process_uploads_eq, fmap_app. apply in_or_app. left. exact Hold.
    + pose proof (process_uploads_added st ups f i Hf Hnew Hext) as Hin.
      rewrite <- (extract_filename _ _ _ Hext).
      apply list_elem_of_In, list_elem_of_fmap. exists i.
      split; [reflexivity | apply list_elem_of_In, Hin].
Qed.

(** X23: running the upload block again with the same uploads changes
    nothing: no file is added twice, and a file that could not be read is
    not added on the second attempt either. *)
Theorem process_uploads_idempotent st ups :
  process_uploads name_of filename_of extract
    (process_uploads name_of filename_of extract st ups) ups
  = process_uploads name_of filename_of extract st ups.
Proof.
  rewrite (process_uploads_eq (process_uploads _ _ _ st ups)).
  rewrite omap_all_None; [apply app_nil_r |].
  intros f Hf. apply filter_In in Hf as [Hf Hnew].
  apply negb_true_iff, not_true_iff_false in Hnew.
  rewrite list_contains_In in Hnew.
  destruct (extract f (name_of f)) as [i |] eqn:Hext; [| reflexivity].
  exfalso. apply Hnew.
  destruct (in_dec String.string_dec (name_of f) (filename_of <$> st))
    as [Hold | Hfresh].
  - rewrite process_uploads_eq, fmap_app. apply in_or_app. left. exact Hold.
  - rewrite <- (extract_filename _ _ _ Hext).
    apply list_elem_of_In, list_elem_of_fmap. exists i.
    split; [reflexivity |].
    apply list_elem_of_In, (process_uploads_added st ups f i Hf Hfresh Hext).
Qed.

(** X24: the remove button drops every processed file of the given name
    and keeps the others in order; if the file is still among the uploads
    and can be read, the next run of the upload block appends it again. *)
Theorem remove_then_process st ups f i :
  In f ups → extract f (name_of f) = Some i →
  ¬ In (name_of f) (filename_of <$> remove_file filename_of st (name_of f))
  ∧ In i (process_uploads name_of filename_of extract
            (remove_file filename_of st (name_of f)) ups).
Proof.
  intros Hf Hext.
  assert (¬ In (name_of f)
            (filename_of <$> remove_file filename_of st (name_of f))) as Hgone.
  { intros Hin. apply list_elem_of_In, list_elem_of_fmap in Hin as (j & Hj & Hin).
    apply list_elem_of_In, filter_In in Hin as [_ Hne].
    apply negb_true_iff, String.eqb_neq in Hne. congruence. }
  split; [exact Hgone |].
  apply (process_uploads_added _ ups f i); assumption.
Qed.

End SessionProperties.

(** A small instance for the three theorems: an upload is a name with a
    flag telling whether the file can be read, and the dict of a processed
    file is reduced to its file name. *)
Lemma sample_extract_filename :
  ∀ (f : string * bool) (n i : string),
    (if f.2 then Some n else None) = Some i → id i = n.
Proof. intros f n i. destruct f.2; [intros [= <-]; reflexivity | discriminate]. Qed.

Lemma process_uploads_complete_witness :
  ["a.pdf"%string]
    `prefix_of` process_uploads fst id
                  (λ (f : string * bool) n, if f.2 then Some n else None)
                  ["a.pdf"%string]
                  [("a.pdf", true); ("b.pdf", true); ("c.pdf", false)]%string
  ∧ ∀ (f : string * bool) (i : string),
      In f [("a.pdf", true); ("b.pdf", true); ("c.pdf", false)]%string →
      (if f.2 then Some f.1 else None) = Some i →
      In f.1
        (id <$> process_uploads fst id
                  (λ (f : string * bool) n, if f.2 then Some n else None)
                  ["a.pdf"%string]
                  [("a.pdf", true); ("b.pdf", true); ("c.pdf", false)]%string).
Proof.
  apply (process_uploads_complete fst id
           (λ (f : string * bool) n, if f.2 then Some n else None)
           sample_extract_filename).
Defined.

Lemma process_uploads_idempotent_witness :
  process_uploads fst id
    (λ (f : string * bool) n, if f.2 then Some n else None)
    (process_uploads fst id
       (λ (f : string * bool) n, if f.2 then Some n else None)
       ["a.pdf"%string]
       [("a.pdf", true); ("b.pdf", true); ("c.pdf", false)]%string)
    [("a.pdf", true); ("b.pdf", true); ("c.pdf", false)]%string
  = process_uploads fst id
      (λ (f : string * bool) n, if f.2 then Some n else None)
      ["a.pdf"%string]
      [("a.pdf", true); ("b.pdf", true); ("c.pdf", false)]%string.
Proof.
  apply (process_uploads_idempotent fst id
           (λ (f : string * bool) n, if f.2 then Some n else None)
           sample_extract_filename).
Defined.

Lemma remove_then_process_witness :
  ¬ In "a.pdf"%string
      (id <$> remove_file id ["a.pdf"; "b.pdf"]%string "a.pdf")
  ∧ In "a.pdf"%string
      (process_uploads fst id
         (λ (f : string * bool) n, if f.2 then Some n else None)
         (remove_file id ["a.pdf"; "b.pdf"]%string "a.pdf")
         [("a.pdf", true); ("b.pdf", true)]%string).
Proof.
  apply (remove_then_process fst id
           (λ (f : string * bool) n, if f.2 then Some n else None)
           ["a.pdf"; "b.pdf"]%string
           [("a.pdf", true); ("b.pdf", true)]%string ("a.pdf"%string, true)).
  - simpl. tauto.
  - reflexivity.
Defined.

(** ** Sorting by date *)

Lemma insert_sorted_perm {A} (key : A → Z) x l :
  insert_sorted key x l ≡ₚ x :: l.
Proof.
  induction l as [| y l IH]; [reflexivity |]. cbn [insert_sorted].
  destruct (key x <=? key y); [reflexivity |].
  rewrite IH. apply Permutation_swap.
Qed.

Lemma py_sorted_perm {A} (key : A → Z) l : py_sorted key l ≡ₚ l.
Proof.
  induction l as [| x l IH]; [reflexivity |].
  cbn [py_sorted foldr]. fold (py_sorted key l).
  rewrite insert_sorted_perm, IH. reflexivity.
Qed.

Lemma insert_sorted_sorted {A} (key : A → Z) x l :
  StronglySorted (λ a b, key a ≤ key b) l →
  StronglySorted (λ a b, key a ≤ key b) (insert_sorted key x l).
Proof.
  induction 1 as [| y l Hl IH Hy].
  - repeat constructor.
  - cbn [insert_sorted]. destruct (Z.leb_spec (key x) (key y)) as [Hle | Hgt].
    + constructor; [constructor; assumption |].
      constructor; [exact Hle |].
      eapply Forall_impl; [exact Hy |]. intros z Hz. simpl in *. lia.
    + constructor; [exact IH |].
      rewrite insert_sorted_perm. constructor; [lia | exact Hy].
Qed.

Lemma py_sorted_sorted {A} (key : A → Z) l :
  StronglySorted (λ a b, key a ≤ key b) (py_sorted key l).
Proof.
  induction l as [| x l IH]; [constructor |].
  cbn [py_sorted foldr]. apply insert_sorted_sorted, IH.
Qed.

Lemma insert_sorted_app_l {A} (key : A → Z) x l1 l2 :
  (∀ u, In u l2 → key x ≤ key u) →
  insert_sorted key x (l1 ++ l2) = insert_sorted key x l1 ++ l2.
Proof.
  intros H2. induction l1 as [| a l1 IH].
  - destruct l2 as [| u l2]; [reflexivity |]. cbn [app insert_sorted].
    destruct (Z.leb_spec (key x) (key u)) as [_ | Hgt]; [reflexivity |].
    specialize (H2 u (or_introl eq_refl)). lia.
  - cbn [app insert_sorted]. destruct (key x <=? key a); [reflexivity |].
    rewrite IH. reflexivity.
Qed.

Lemma insert_sorted_app_r {A} (key : A → Z) x l1 l2 :
  (∀ a, In a l1 → key a < key x) →
  (∀ u, In u l2 → key x ≤ key u) →
  insert_sorted key x (l1 ++ l2) = l1 ++ x :: l2.
Proof.
  intros H1 H2. induction l1 as [| a l1 IH].
  - apply (insert_sorted_app_l key x [] l2 H2).
  - cbn [app insert_sorted].
    destruct (Z.leb_spec (key x) (key a)) as [Hle | _].
    + specialize (H1 a (or_introl eq_refl)). lia.
    + rewrite IH; [reflexivity |]. intros b Hb. apply H1. right. exact Hb.
Qed.

Section SortedFiles.

Context {info : Type}.
Variable date_of : info → option Z.
Variable datetime_max : Z.

Lemma dated_sorted_in l a :
  In a (py_sorted (date_key date_of datetime_max) (List.filter (dated date_of) l)) →
  In a l ∧ dated date_of a = true.
Proof.
  intros Ha. apply list_elem_of_In in Ha.
  rewrite py_sorted_perm in Ha. apply list_elem_of_In, filter_In in Ha.
  exact Ha.
Qed.

(** X25: the files are merged in this order: first the files that carry a
    date, by ascending date, then the files without a date, in the order
    they were processed. The result holds the same files, in ascending
    order of the sort key. The dates read from a file all lie before
    [datetime.max]. *)
Theorem sorted_files_dated_first l :
  (∀ x d, In x l → date_of x = Some d → d < datetime_max) →
  sorted_files date_of datetime_max l
  = py_sorted (date_key date_of datetime_max) (List.filter (dated date_of) l)
    ++ List.filter (λ x, negb (dated date_of x)) l
  ∧ sorted_files date_of datetime_max l ≡ₚ l
  ∧ StronglySorted
      (λ a b, date_key date_of datetime_max a ≤ date_key date_of datetime_max b)
      (sorted_files date_of datetime_max l).
Proof.
  intros Hdates. unfold sorted_files.
  split; [| split; [apply py_sorted_perm | apply py_sorted_sorted]].
  induction l as [| x l IH]; [reflexivity |].
  cbn [py_sorted foldr List.filter]. fold (py_sorted (date_key date_of datetime_max) l).
  rewrite IH by (intros y d Hy; apply Hdates; right; exact Hy).
  assert (∀ u, In u (List.filter (λ x, negb (dated date_of x)) l) →
               date_key date_of datetime_max u = datetime_max) as Hundated.
  { intros u Hu. apply filter_In in Hu as [_ Hu].
    unfold dated, date_key in *. destruct (date_of u); [discriminate | reflexivity]. }
  destruct (dated date_of x) eqn:Hdx; cbn [negb];
    unfold dated in Hdx; destruct (date_of x) as [d |] eqn:Hx;
    try discriminate Hdx.
  - cbn [py_sorted foldr]. apply insert_sorted_app_l.
    intros u Hu. rewrite (Hundated u Hu). unfold date_key. rewrite Hx.
    pose proof (Hdates x d (or_introl eq_refl) Hx). lia.
  - apply insert_sorted_app_r.
    + intros a Ha. apply dated_sorted_in in Ha as [Ha Hd].
      unfold dated in Hd. unfold date_key at 2. rewrite Hx.
      unfold date_key. destruct (date_of a) as [da |] eqn:Hda; [| discriminate].
      apply (Hdates a da); [right; exact Ha | exact Hda].
    + intros u Hu. rewrite (Hundated u Hu). unfold date_key. rewrite Hx. lia.
Qed.

End SortedFiles.

Lemma sorted_files_dated_first_witness :
  sorted_files id 99991231 [Some 20240105; None; Some 20230312; None]
  = py_sorted (date_key id 99991231)
      (List.filter (dated id) [Some 20240105; None; Some 20230312; None])
    ++ List.filter (λ x, negb (dated id x))
         [Some 20240105; None; Some 20230312; None]
  ∧ sorted_files id 99991231 [Some 20240105; None; Some 20230312; None]
    ≡ₚ [Some 20240105; None; Some 20230312; None]
  ∧ StronglySorted
      (λ a b, date_key id 99991231 a ≤ date_key id 99991231 b)
      (sorted_files id 99991231 [Some 20240105; None; Some 20230312; None]).
Proof.
  apply (sorted_files_dated_first id 99991231).
  intros x d Hin Hx. simpl in Hin. unfold id in Hx.
  repeat (destruct Hin as [<- | Hin]; [first [discriminate Hx | injection Hx as <-; lia] |]).
  destruct Hin.
Defined.
